(** * scrapy-webdriver: the download handler and the spider middleware

    A shallow embedding of [scrapy_webdriver/download.py] and
    [scrapy_webdriver/middlewares.py].  Python objects become records,
    [isinstance] tests become tests on a request's kind, and the methods
    become functions in a small state-and-exception monad that also
    records, in order, the calls a method makes to its collaborators.

    The two files import [WebdriverManager] from [manager.py] and the
    request and response classes from [http.py]; neither module is part of
    the sources at hand, so the manager is modelled from the specification
    (module [Manager]) and the classes are modelled by what the two files
    use of them. *)

From stdpp Require Import base option list strings gmap fin_maps pretty.
From Stdlib Require Import ZArith Lia.

Open Scope string_scope.
Open Scope list_scope.

(** ** Requests, responses and exceptions *)

(** [isinstance(request, WebdriverRequest)] and
    [isinstance(request, WebdriverActionRequest)]: an action request is a
    webdriver request too (the second test is only made under the first). *)
Inductive request_kind := PlainRequest | SimpleWebdriver | ActionWebdriver.

#[global] Instance request_kind_eq_dec : EqDecision request_kind.
Proof. solve_decision. Defined.

Record Request := mkRequest {
  url : string;
  kind : request_kind;
  dont_filter : bool
}.

#[global] Instance Request_eq_dec : EqDecision Request.
Proof. solve_decision. Defined.

Definition is_WebdriverRequest (r : Request) : bool :=
  match kind r with PlainRequest => false | _ => true end.

Definition is_WebdriverActionRequest (r : Request) : bool :=
  match kind r with ActionWebdriver => true | _ => false end.

(** [request.replace(dont_filter=True)] *)
Definition replace_dont_filter (r : Request) (b : bool) : Request :=
  {| url := url r; kind := kind r; dont_filter := b |}.

(** What [acquire] and [acquire_next] return: a request, or the sentinel
    [WebdriverRequest.WAITING], which callers test with [is]. *)
Inductive acquired := WAITING | Granted (r : Request).

#[global] Instance acquired_eq_dec : EqDecision acquired.
Proof. solve_decision. Defined.

(** Instances of [Exception], which is what [except Exception] catches.
    [page_source] is the attribute the download handler sets on a caught
    exception. *)
Inductive exn_class :=
  IgnoreRequest | NotImplementedError | OverflowError | OtherError.

Record exn := mkExn {
  exn_class_of : exn_class;
  exn_str : string;
  page_source : option string
}.

Definition set_page_source (e : exn) (body : string) : exn :=
  {| exn_class_of := exn_class_of e; exn_str := exn_str e;
     page_source := Some body |}.

(** A webdriver instance is known by the order in which it was created. *)
Definition handle := nat.

(** [WebdriverResponse(url, x)], with [x] the webdriver or the exception. *)
Record WebdriverResponse := mkWebdriverResponse {
  response_url : string;
  response_arg : handle + exn
}.

(** The response handed to the spider middleware: Scrapy has attached the
    request it answers. *)
Record Response := mkResponse { request : Request }.

(** What flows through the spider middleware: scraped items and requests. *)
Inductive item_or_request := AnItem (data : string) | ARequest (r : Request).

Inductive log_level := DEBUG | INFO | WARNING | ERROR.

Inductive signal_number := SIGTERM | SIGALRM.

(** ** The webdriver manager *)

Module Manager.

(** Modelled from the spec: [manager.py] is missing.  The state is the
    lock ([held_by]; held when it is [Some]), the wait queue (the stored
    request of every queued identity and the identities in admission
    order) and the lazily created webdriver. *)
Record state := mkState {
  held_by : option string;
  order : list string;
  waiting : gmap string Request;
  _webdriver : option handle;
  created : nat
}.

Definition init : state :=
  {| held_by := None; order := []; waiting := ∅;
     _webdriver := None; created := 0 |}.

Definition set_held_by (h : option string) (s : state) : state :=
  {| held_by := h; order := order s; waiting := waiting s;
     _webdriver := _webdriver s; created := created s |}.

Definition set_queue (o : list string) (m : gmap string Request)
    (s : state) : state :=
  {| held_by := held_by s; order := o; waiting := m;
     _webdriver := _webdriver s; created := created s |}.

Definition set_webdriver (h : option handle) (s : state) : state :=
  {| held_by := held_by s; order := order s; waiting := waiting s;
     _webdriver := h; created := created s |}.

(** Modelled from the spec: a request's identity is its URL (the spec's
    normalisation of URLs is not in the sources; the middleware passes
    [response.request.url] as the identity). *)
Definition identity (r : Request) : string := url r.

(** Modelled from the spec: [acquire(request)].  Lock free: take it and
    return the request unchanged.  Lock held: store the request under its
    identity, appending the identity to the queue only when it is not
    queued yet, and return [WAITING]. *)
Definition acquire (r : Request) (s : state) : acquired * state :=
  match held_by s with
  | None => (Granted r, set_held_by (Some (identity r)) s)
  | Some _ =>
      match waiting s !! identity r with
      | Some _ =>
          (WAITING, set_queue (order s) (<[identity r := r]> (waiting s)) s)
      | None =>
          (WAITING,
           set_queue (order s ++ [identity r])
                     (<[identity r := r]> (waiting s)) s)
      end
  end.

(** Modelled from the spec: [acquire_next()] pops the oldest entry and
    calls [acquire] on it; with an empty queue it returns [WAITING] and
    touches nothing.  A queued identity always has a stored request
    ([wf] below), so the last branch is never taken from a state the
    operations can reach. *)
Definition acquire_next (s : state) : acquired * state :=
  match order s with
  | [] => (WAITING, s)
  | i :: rest =>
      match waiting s !! i with
      | Some r => acquire r (set_queue rest (delete i (waiting s)) s)
      | None => (WAITING, set_queue rest (waiting s) s)
      end
  end.

Section Release.

(** [download.py] calls [release()] with no identity, a call the spec
    does not describe; what it does to the lock is a parameter. *)
Variable release_unnamed : option string → option string.

(** Modelled from the spec: [release(identity)] clears the lock only if
    the identity is the holder's, and is a no-op otherwise. *)
Definition release (i : option string) (s : state) : state :=
  match i with
  | Some x =>
      if decide (held_by s = Some x) then set_held_by None s else s
  | None => set_held_by (release_unnamed (held_by s)) s
  end.

End Release.

(** Modelled from the spec: the [webdriver] property creates the
    instance on first use and after it was set back to [None].  The
    first component tells whether this access created it. *)
Definition webdriver (s : state) : bool * handle * state :=
  match _webdriver s with
  | Some h => (false, h, s)
  | None =>
      (true, created s,
       {| held_by := held_by s; order := order s; waiting := waiting s;
          _webdriver := Some (created s); created := S (created s) |})
  end.

(** Every identity is queued at most once, and the queued identities are
    those with a stored request. *)
Definition wf (s : state) : Prop :=
  NoDup (order s) ∧ ∀ i, i ∈ order s ↔ is_Some (waiting s !! i).

End Manager.

(** ** Effects

    A method runs against the [World] (the manager, which the handler and
    the middleware share, the pending alarm and the handler bound to
    [SIGALRM]), either returns or raises, unless a signal ends the process
    under it, and leaves the list of the calls it made, in order. *)

Inductive event :=
  | EvLog (level : log_level) (msg : string)
  | EvSignal (sig : signal_number) (captured : Request)
  | EvAlarm (seconds : Z)
  | EvAcquire (r : Request) (res : acquired)
  | EvRelease (i : option string)
  | EvAcquireNext (res : acquired)
  | EvWebdriver (fresh : bool) (h : handle)
  | EvGet (h : handle) (u : string)
  | EvSendSignal (h : handle) (sig : signal_number)
  | EvFallback (r : Request)
  | EvYield (x : item_or_request).

Record World := mkWorld {
  manager : Manager.state;
  alarm : option Z;
  sigalrm : option Request
}.

Definition set_manager (m : Manager.state) (w : World) : World :=
  {| manager := m; alarm := alarm w; sigalrm := sigalrm w |}.

Definition set_alarm (a : option Z) (w : World) : World :=
  {| manager := manager w; alarm := a; sigalrm := sigalrm w |}.

Definition set_sigalrm (h : option Request) (w : World) : World :=
  {| manager := manager w; alarm := alarm w; sigalrm := h |}.

Inductive outcome (A : Type) :=
  | Val (a : A)
  | Exc (e : exn)
  | Killed.
Arguments Val {A} a.
Arguments Exc {A} e.
Arguments Killed {A}.

Definition M (A : Type) : Type := World → outcome A * World * list event.

Definition ret {A} (a : A) : M A := λ w, (Val a, w, []).

Definition raise {A} (e : exn) : M A := λ w, (Exc e, w, []).

Definition bind {A B} (m : M A) (k : A → M B) : M B := λ w,
  match m w with
  | (Val a, w1, t1) => let '(r, w2, t2) := k a w1 in (r, w2, t1 ++ t2)
  | (Exc e, w1, t1) => (Exc e, w1, t1)
  | (Killed, w1, t1) => (Killed, w1, t1)
  end.

Notation "x <- m ;; k" := (bind m (λ x, k))
  (at level 100, m at next level, right associativity).
Notation "m ;; k" := (bind m (λ _, k))
  (at level 100, right associativity).

Definition emit (e : event) : M unit := λ w, (Val tt, w, [e]).

Definition when (b : bool) (m : M unit) : M unit := if b then m else ret tt.

(** [try: body / finally: final].  The outcome of [body] stands unless
    [final] raises; a killed process runs no [finally] clause. *)
Definition try_finally {A} (body : M A) (final : M unit) : M A := λ w,
  match body w with
  | (Killed, w1, t1) => (Killed, w1, t1)
  | (r, w1, t1) =>
      match final w1 with
      | (Val _, w2, t2) => (r, w2, t1 ++ t2)
      | (Exc e, w2, t2) => (Exc e, w2, t1 ++ t2)
      | (Killed, w2, t2) => (Killed, w2, t1 ++ t2)
      end
  end.

(** [try: body / except Exception, e: handler / else: orelse]. *)
Definition try_except_else {A} (body : M unit) (handler : exn → M A)
    (orelse : M A) : M A := λ w,
  match body w with
  | (Val _, w1, t1) => let '(r, w2, t2) := orelse w1 in (r, w2, t1 ++ t2)
  | (Exc e, w1, t1) => let '(r, w2, t2) := handler e w1 in (r, w2, t1 ++ t2)
  | (Killed, w1, t1) => (Killed, w1, t1)
  end.

(** Python's truth value of a setting that is [None] or a number. *)
Definition truthy (o : option Z) : bool :=
  match o with Some z => negb (z =? 0)%Z | None => false end.

Definition str_setting (o : option Z) : string :=
  match o with Some z => pretty z | None => "None" end.

(** [str(self._manager._webdriver)] *)
Definition str_webdriver (o : option handle) : string :=
  match o with
  | Some h => "<WebDriver " +:+ pretty h +:+ ">"
  | None => "None"
  end.

(** [spider.log(msg, level=...)] *)
Definition log (msg : string) (level : log_level) : M unit :=
  emit (EvLog level msg).

(** The values of a C [int], which is what [signal.alarm] takes its
    argument as. *)
Definition INT_MIN : Z := (-2147483648)%Z.
Definition INT_MAX : Z := 2147483647%Z.

Definition fits_c_int (z : Z) : bool :=
  ((INT_MIN <=? z) && (z <=? INT_MAX))%Z.

(** The [OverflowError] of an argument that is no C [int].  The text is
    the one Python gives within the range of a C [long]; nothing in these
    files reads it. *)
Definition overflow_error (z : Z) : exn :=
  mkExn OverflowError
    (if (INT_MAX <? z)%Z then "signed integer is greater than maximum"
     else "signed integer is less than minimum")
    None.

(** [signal.alarm(seconds)]: a zero cancels the pending alarm; a number
    that is no C [int] makes the call raise [OverflowError]. *)
Definition signal_alarm (seconds : Z) : M unit := λ w,
  if fits_c_int seconds then
    (Val tt, set_alarm (if (seconds =? 0)%Z then None else Some seconds) w,
     [EvAlarm seconds])
  else (Exc (overflow_error seconds), w, [EvAlarm seconds]).

(** [signal.signal(signal.SIGALRM, alarm_handler)], the closure being
    known by the request it captured. *)
Definition signal_signal (captured : Request) : M unit := λ w,
  (Val tt, set_sigalrm (Some captured) w, [EvSignal SIGALRM captured]).

(** How one blocking [webdriver.get] goes: whether the pending alarm goes
    off while it runs, and whether it ends by raising. *)
Record get_outcome := mkGetOutcome {
  alarm_fires : bool;
  get_raises : option exn
}.

Definition mgr_acquire (r : Request) : M acquired := λ w,
  let '(res, m) := Manager.acquire r (manager w) in
  (Val res, set_manager m w, [EvAcquire r res]).

Definition mgr_acquire_next : M acquired := λ w,
  let '(res, m) := Manager.acquire_next (manager w) in
  (Val res, set_manager m w, [EvAcquireNext res]).

(** The [webdriver] property of the manager. *)
Definition mgr_webdriver : M handle := λ w,
  let '(fresh, h, m) := Manager.webdriver (manager w) in
  (Val h, set_manager m w, [EvWebdriver fresh h]).

(** [self._manager._webdriver], read. *)
Definition mgr_webdriver_attr : M (option handle) := λ w,
  (Val (Manager._webdriver (manager w)), w, []).

(** [self._manager._webdriver = None] *)
Definition mgr_reset_webdriver : M unit := λ w,
  (Val tt, set_manager (Manager.set_webdriver None (manager w)) w, []).

Definition yield (x : item_or_request) : M unit := emit (EvYield x).

(** The events of one kind in a trace. *)
Definition yielded (t : list event) : list item_or_request :=
  omap (λ e, match e with EvYield x => Some x | _ => None end) t.

Definition acquire_calls (t : list event) : list (Request * acquired) :=
  omap (λ e, match e with EvAcquire r res => Some (r, res) | _ => None end) t.

Definition logged (t : list event) : list (log_level * string) :=
  omap (λ e, match e with EvLog l m => Some (l, m) | _ => None end) t.

Definition is_manager_call (e : event) : bool :=
  match e with
  | EvAcquire _ _ | EvRelease _ | EvAcquireNext _ | EvWebdriver _ _
  | EvGet _ _ | EvSendSignal _ _ => true
  | _ => false
  end.

Definition is_timer_call (e : event) : bool :=
  match e with EvSignal _ _ | EvAlarm _ => true | _ => false end.

(** ** download.py *)

Record settings := mkSettings {
  WEBDRIVER_BROWSER : option string;
  WEBDRIVER_TIMEOUT : option Z;
  WEBDRIVER_HANG_TIMEOUT : option Z
}.

(** The attributes [WebdriverDownloadHandler.__init__] sets from the
    settings; the fallback handler and the manager live in the [World]. *)
Record WebdriverDownloadHandler := mkHandler {
  _enabled : bool;
  _timeout : option Z;
  _hang_timeout : option Z
}.

Definition __init__ (s : settings) : WebdriverDownloadHandler :=
  {| _enabled := bool_decide (WEBDRIVER_BROWSER s ≠ None);
     _timeout := WEBDRIVER_TIMEOUT s;
     _hang_timeout := WEBDRIVER_HANG_TIMEOUT s |}.

(** What [download_request] returns: what the fallback handler returned
    for the request, or the response the thread of [_download_request]
    ends with. *)
Inductive download_result :=
  | FromFallback (r : Request)
  | FromWebdriver (resp : WebdriverResponse).

Definition blank_page : string := "<html><head></head><body></body></html>".

Definition error_msg : string :=
  "WebdriverRequests from start_requests can't be in-page.".

Section Program.

Variable release_unnamed : option string → option string.

Definition mgr_release (i : option string) : M unit := λ w,
  (Val tt, set_manager (Manager.release release_unnamed i (manager w)) w,
   [EvRelease i]).

(** The closure [alarm_handler] of [download_request], for the
    [request] it captured. *)
Definition alarm_handler (self : WebdriverDownloadHandler)
    (request : Request) : M unit :=
  h <- mgr_webdriver ;;
  emit (EvSendSignal h SIGTERM) ;;
  mgr_reset_webdriver ;;
  mgr_release None ;;
  log ("WebDriver.get for '" +:+ url request
       +:+ "' took more than WEBDRIVER_HANG_TIMEOUT ("
       +:+ str_setting (_hang_timeout self) +:+ "s)") INFO.

(** The pending alarm going off: the bound handler runs, once; with no
    handler bound, [SIGALRM] ends the process. *)
Definition deliver_alarm (self : WebdriverDownloadHandler) : M unit := λ w,
  match alarm w, sigalrm w with
  | Some _, Some captured =>
      alarm_handler self captured (set_alarm None w)
  | Some _, None => (Killed, w, [])
  | None, _ => (Val tt, w, [])
  end.

(** [self._manager.webdriver.get(request.url)], going as [o] says. *)
Definition webdriver_get (self : WebdriverDownloadHandler) (u : string)
    (o : get_outcome) : M unit :=
  h <- mgr_webdriver ;;
  emit (EvGet h u) ;;
  when (alarm_fires o) (deliver_alarm self) ;;
  match get_raises o with
  | Some e => raise e
  | None => ret tt
  end.

(** The [except Exception, exception:] clause of [_download_request]. *)
Definition _download_request_except (self : WebdriverDownloadHandler)
    (request : Request) (exception : exn) : M WebdriverResponse :=
  when (truthy (_hang_timeout self))
    (log "settings alarm to 0 on FAILURE" DEBUG ;;
     wd <- mgr_webdriver_attr ;;
     log ("FAIL: " +:+ str_webdriver wd) DEBUG ;;
     signal_alarm 0) ;;
  let exception := set_page_source exception blank_page in
  log ("Error while downloading " +:+ url request
       +:+ " with webdriver (" +:+ exn_str exception +:+ ")") ERROR ;;
  mgr_webdriver ;;
  wd <- mgr_webdriver_attr ;;
  log ("FAIL 2. THIS SHOULD BE WEBDRIVER: " +:+ str_webdriver wd) DEBUG ;;
  ret (mkWebdriverResponse (url request) (inr exception)).

(** The [else:] clause of [_download_request]. *)
Definition _download_request_else (self : WebdriverDownloadHandler)
    (request : Request) : M WebdriverResponse :=
  when (truthy (_hang_timeout self))
    (log "settings alarm to 0 on SUCCESS" DEBUG ;;
     wd <- mgr_webdriver_attr ;;
     log ("YEAH: " +:+ str_webdriver wd) DEBUG ;;
     signal_alarm 0) ;;
  h <- mgr_webdriver ;;
  ret (mkWebdriverResponse (url request) (inl h)).

(** The body of the thread [@inthread] starts: it runs to its end, and
    what it returns or raises is what the deferred fires with. *)
Definition _download_request (self : WebdriverDownloadHandler)
    (request : Request) (o : get_outcome) : M WebdriverResponse :=
  log ("Downloading " +:+ url request +:+ " with webdriver") DEBUG ;;
  when (truthy (_hang_timeout self))
    (signal_alarm (default 0%Z (_hang_timeout self))) ;;
  try_finally
    (try_except_else
       (mgr_acquire request ;;
        webdriver_get self (url request) o)
       (_download_request_except self request)
       (_download_request_else self request))
    (mgr_release None).

Definition download_request (self : WebdriverDownloadHandler)
    (request : Request) (o : get_outcome) : M download_result :=
  if _enabled self && is_WebdriverRequest request then
    when (truthy (_hang_timeout self)) (signal_signal request) ;;
    if is_WebdriverActionRequest request then
      raise (mkExn NotImplementedError "" None)
    else
      resp <- _download_request self request o ;;
      ret (FromWebdriver resp)
  else
    emit (EvFallback request) ;;
    ret (FromFallback request).

(** ** middlewares.py *)

(** The generator [_process_requests], consumed to its end: the items it
    yields are the [EvYield] events of its trace, and it ends by
    returning or by raising. *)
Fixpoint _process_requests (items_or_requests : list item_or_request)
    (start : bool) : M unit :=
  match items_or_requests with
  | [] => ret tt
  | x :: rest =>
      match x with
      | ARequest r =>
          if is_WebdriverRequest r then
            if start && is_WebdriverActionRequest r then
              raise (mkExn IgnoreRequest error_msg None)
            else
              res <- mgr_acquire r ;;
              match res with
              | WAITING => _process_requests rest start
              | Granted r' =>
                  yield (ARequest r') ;; _process_requests rest start
              end
          else
            yield x ;; _process_requests rest start
      | AnItem _ => yield x ;; _process_requests rest start
      end
  end.

Definition process_start_requests (start_requests : list item_or_request)
    : M unit :=
  _process_requests start_requests true.

Definition process_spider_output (response : Response)
    (result : list item_or_request) : M unit :=
  _process_requests result false ;;
  if is_WebdriverRequest (request response) then
    mgr_release (Some (url (request response))) ;;
    next_request <- mgr_acquire_next ;;
    match next_request with
    | WAITING => ret tt
    | Granted r => yield (ARequest (replace_dont_filter r true))
    end
  else ret tt.

(** Returns the list [[next_request]], or [None] when the function falls
    off its end. *)
Definition process_spider_exception (response : Response)
    (exception : exn) : M (option (list acquired)) :=
  if is_WebdriverRequest (request response) then
    mgr_release (Some (url (request response))) ;;
    next_request <- mgr_acquire_next ;;
    ret (Some [next_request])
  else ret None.

End Program.

(** ** Sequences of manager operations *)

Inductive manager_op :=
  | OpAcquire (r : Request)
  | OpRelease (i : option string)
  | OpAcquireNext.

Section Runs.

Variable release_unnamed : option string → option string.

Definition apply_op (o : manager_op) (s : Manager.state) : Manager.state :=
  match o with
  | OpAcquire r => snd (Manager.acquire r s)
  | OpRelease i => Manager.release release_unnamed i s
  | OpAcquireNext => snd (Manager.acquire_next s)
  end.

Fixpoint run (ops : list manager_op) (s : Manager.state) : Manager.state :=
  match ops with
  | [] => s
  | o :: rest => run rest (apply_op o s)
  end.

(** The identity a caller's [acquire] puts in the queue: the lock is
    held and the identity is not queued yet, so this is its first
    attempt. *)
Definition first_attempt (o : manager_op) (s : Manager.state)
    : list string :=
  match o with
  | OpAcquire r =>
      match Manager.held_by s, Manager.waiting s !! Manager.identity r with
      | Some _, None => [Manager.identity r]
      | _, _ => []
      end
  | _ => []
  end.

(** The identity an [acquire_next] gives the lock to. *)
Definition granted_next (o : manager_op) (s : Manager.state)
    : list string :=
  match o with
  | OpAcquireNext =>
      match fst (Manager.acquire_next s) with
      | Granted r => [Manager.identity r]
      | WAITING => []
      end
  | _ => []
  end.

Fixpoint first_attempts (ops : list manager_op) (s : Manager.state)
    : list string :=
  match ops with
  | [] => []
  | o :: rest => first_attempt o s ++ first_attempts rest (apply_op o s)
  end.

Fixpoint granted_by_next (ops : list manager_op) (s : Manager.state)
    : list string :=
  match ops with
  | [] => []
  | o :: rest => granted_next o s ++ granted_by_next rest (apply_op o s)
  end.

(** Every [acquire_next] of the run is called with the lock free. *)
Fixpoint next_when_free (ops : list manager_op) (s : Manager.state)
    : bool :=
  match ops with
  | [] => true
  | o :: rest =>
      match o with
      | OpAcquireNext => bool_decide (Manager.held_by s = None)
      | _ => true
      end && next_when_free rest (apply_op o s)
  end.

End Runs.

(** ** Reading the traces *)

(** What a blocking call ends with. *)
Definition get_result (o : get_outcome) : outcome unit :=
  match get_raises o with Some e => Exc e | None => Val tt end.

(** The events by which the handler disarms the alarm, when a hang timeout
    is configured; [tag] is the text of the two debug lines. *)
Definition disarm_events (self : WebdriverDownloadHandler)
    (tag1 tag2 : string) (wd : option handle) : list event :=
  if truthy (_hang_timeout self) then
    [EvLog DEBUG tag1; EvLog DEBUG (tag2 +:+ str_webdriver wd); EvAlarm 0]
  else [].

(** The hang timeout, if there is one, is a number [signal.alarm]
    takes. *)
Definition timeout_accepted (self : WebdriverDownloadHandler) : bool :=
  match _hang_timeout self with Some z => fits_c_int z | None => true end.

(** If the alarm goes off during the blocking call, a handler is bound,
    as [download_request] binds one whenever [_download_request] arms the
    alarm. *)
Definition handler_ready (o : get_outcome) (w : World) : Prop :=
  alarm_fires o = true → sigalrm w ≠ None.

(** The event by which the handler arms the alarm, when a hang timeout is
    configured. *)
Definition arm_events (self : WebdriverDownloadHandler) : list event :=
  if truthy (_hang_timeout self) then
    [EvAlarm (default 0%Z (_hang_timeout self))]
  else [].

Definition is_resource_bound (x : item_or_request) : bool :=
  match x with ARequest r => is_WebdriverRequest r | AnItem _ => false end.

Definition is_action (x : item_or_request) : bool :=
  match x with
  | ARequest r => is_WebdriverRequest r && is_WebdriverActionRequest r
  | AnItem _ => false
  end.

(** The items of a batch that need no webdriver, and those that do. *)
Definition non_resource (l : list item_or_request) : list item_or_request :=
  filter (λ x, is_resource_bound x = false) l.

Definition resource_bound (l : list item_or_request) : list item_or_request :=
  filter (λ x, is_resource_bound x = true) l.

(** The requests [acquire] was called on, and those of them it did not
    answer with [WAITING]. *)
Definition acquire_arguments (t : list event) : list item_or_request :=
  (λ c, ARequest c.1) <$> acquire_calls t.

Definition not_told_to_wait (t : list event) : list item_or_request :=
  omap (λ c, match c.2 with
             | Granted _ => Some (ARequest c.1)
             | WAITING => None
             end) (acquire_calls t).

(** ** Sample inputs *)

(** A [release()] that frees the lock whoever holds it. *)
Definition release_frees : option string → option string := λ _, None.

Definition req_a : Request := mkRequest "http://a/" SimpleWebdriver false.
Definition req_b : Request := mkRequest "http://b/" SimpleWebdriver false.
Definition req_plain : Request := mkRequest "http://p/" PlainRequest false.
Definition action_c : Request := mkRequest "http://c/" ActionWebdriver false.

(** Nothing has happened yet. *)
Definition world0 : World := mkWorld Manager.init None None.

(** The handler of a download of [req_a] is bound to [SIGALRM]. *)
Definition world_bound : World := mkWorld Manager.init None (Some req_a).

(** [req_a] holds the lock and nothing is queued. *)
Definition world_a : World :=
  mkWorld (Manager.set_held_by (Some "http://a/") Manager.init) None None.

(** [req_a] holds the lock and [req_b] is queued. *)
Definition world_ab : World :=
  mkWorld (snd (Manager.acquire req_b (manager world_a))) None None.

Definition handler30 : WebdriverDownloadHandler :=
  __init__ (mkSettings (Some "firefox") None (Some 30%Z)).

(** A hang timeout one past the largest C [int]. *)
Definition handler_overflow : WebdriverDownloadHandler :=
  __init__ (mkSettings (Some "firefox") None (Some 2147483648%Z)).

Definition connection_refused : exn :=
  mkExn OtherError "connection refused" None.

(** The run of [acquire_next_fifo_witness]: "x" takes the lock, "a" and
    "b" queue up, "a" is sent again, and two release and [acquire_next]
    cycles follow. *)
Definition fifo_run : list manager_op :=
  [ OpAcquire (mkRequest "x" SimpleWebdriver false);
    OpAcquire (mkRequest "a" SimpleWebdriver false);
    OpAcquire (mkRequest "b" SimpleWebdriver false);
    OpAcquire (mkRequest "a" SimpleWebdriver true);
    OpRelease (Some "x"); OpAcquireNext;
    OpRelease (Some "a"); OpAcquireNext ].

(** The run of [fifo_broken_by_held_lock]: "a" then "b" queue up behind
    "x"; an [acquire_next] called while "x" still holds the lock pops "a"
    and queues it again, behind "b"; after the release, "b" is let in. *)
Definition rotating_run : list manager_op :=
  [ OpAcquire (mkRequest "x" SimpleWebdriver false);
    OpAcquire (mkRequest "a" SimpleWebdriver false);
    OpAcquire (mkRequest "b" SimpleWebdriver false);
    OpAcquireNext;
    OpRelease (Some "x"); OpAcquireNext ].

(** ** middlewares.py: the downloader middleware *)

(** Modelled from the spec: [response.exception] of a [WebdriverResponse]
    ([http.py] is missing): the exception the response was built with, or
    [None] when it was built with the webdriver. *)
Definition response_exception (resp : WebdriverResponse) : option exn :=
  match response_arg resp with inr e => Some e | inl _ => None end.

(** [WebdriverDownloaderMiddleware.process_response].  The response is
    what [download_request] gave: what came from the fallback handler is
    no [WebdriverResponse]; an exception object is true in Python. *)
Definition process_response (request : Request)
    (response : download_result) : M download_result :=
  match response with
  | FromWebdriver resp =>
      match response_exception resp with
      | Some e =>
          log ("Error while downloading " +:+ url request
               +:+ " with webdriver (" +:+ exn_str e +:+ ")") ERROR
      | None => ret tt
      end
  | FromFallback _ => ret tt
  end ;;
  ret response.

(** ** More ways to read a batch and a trace *)

(** The start requests before the first action request. *)
Fixpoint upto_action (l : list item_or_request) : list item_or_request :=
  match l with
  | [] => []
  | x :: rest => if is_action x then [] else x :: upto_action rest
  end.

(** The calls the spider middleware makes: to the manager's lock and
    queue, and the yields. *)
Definition is_router_event (e : event) : bool :=
  match e with
  | EvAcquire _ _ | EvRelease _ | EvAcquireNext _ | EvYield _ => true
  | _ => false
  end.

(** What the blocking call, and the alarm going off during it, can add to
    a trace. *)
Definition is_driver_event (e : event) : bool :=
  match e with
  | EvWebdriver _ _ | EvGet _ _ | EvSendSignal _ _ | EvRelease None
  | EvLog _ _ => true
  | _ => false
  end.

Definition release_calls (t : list event) : list (option string) :=
  omap (λ e, match e with EvRelease i => Some i | _ => None end) t.

(** The invariant of the manager's queue. *)

(** A stored request is stored under its own identity. *)
Definition keyed (s : Manager.state) : Prop :=
  ∀ i r, Manager.waiting s !! i = Some r → Manager.identity r = i.

Definition inv (s : Manager.state) : Prop := Manager.wf s ∧ keyed s.

(** * Properties *)

(** ** The manager *)

Section ManagerFacts.

Variable release_unnamed : option string → option string.

Local Abbreviation release := (Manager.release release_unnamed).
Local Abbreviation apply_op := (apply_op release_unnamed).
Local Abbreviation run := (run release_unnamed).
Local Abbreviation first_attempts := (first_attempts release_unnamed).
Local Abbreviation granted_by_next := (granted_by_next release_unnamed).
Local Abbreviation next_when_free := (next_when_free release_unnamed).

Lemma inv_init : inv Manager.init.
Proof.
  split; [split|]; simpl.
  - constructor.
  - intros i. rewrite lookup_empty. split.
    + intros H. by apply elem_of_nil in H.
    + intros [x Hx]. discriminate.
  - intros i r. simpl. rewrite lookup_empty. discriminate.
Qed.

Lemma inv_acquire r s : inv s → inv (snd (Manager.acquire r s)).
Proof.
  intros [[Hnd Hdom] Hkey]. unfold Manager.acquire.
  destruct (Manager.held_by s) as [x|];
  [|exact (conj (conj Hnd Hdom) Hkey)].
  destruct (Manager.waiting s !! Manager.identity r) as [old|] eqn:Hq;
    simpl.
  - split; [split|]; simpl.
    + done.
    + intros i. rewrite Hdom. rewrite lookup_insert.
      case_decide; subst; [|done]. rewrite Hq. split; eauto.
    + intros i r'. simpl. rewrite lookup_insert.
      case_decide; subst; [|by apply Hkey]. by intros [= <-].
  - assert (Manager.identity r ∉ Manager.order s) as Hfresh.
    { rewrite Hdom, Hq. by intros [? ?]. }
    split; [split|]; simpl.
    + apply NoDup_app. repeat split; [done| |apply NoDup_singleton].
      intros i Hi Hi'. apply list_elem_of_singleton in Hi'. by subst.
    + intros i. rewrite elem_of_app, list_elem_of_singleton, Hdom.
      rewrite lookup_insert. case_decide; subst.
      * split; eauto.
      * split; [intros [?|?]; [done|congruence] | by left].
    + intros i r'. simpl. rewrite lookup_insert.
      case_decide; subst; [|by apply Hkey]. by intros [= <-].
Qed.

Lemma inv_release i s : inv s → inv (release i s).
Proof.
  intros H. destruct i as [x|]; simpl; [|done].
  by case_decide.
Qed.

Lemma inv_pop i rest s :
  inv s → Manager.order s = i :: rest →
  inv (Manager.set_queue rest (delete i (Manager.waiting s)) s).
Proof.
  intros [[Hnd Hdom] Hkey] Ho. rewrite Ho in Hnd.
  apply NoDup_cons in Hnd as [Hi Hnd].
  split; [split|]; simpl.
  - done.
  - intros j. rewrite lookup_delete. case_decide; subst.
    + split; [done | by intros [? ?]].
    + rewrite <- Hdom, Ho, elem_of_cons.
      split; [by right | intros [?|?]; [congruence | done]].
  - intros j r. simpl. rewrite lookup_delete.
    case_decide; [done | by apply Hkey].
Qed.

Lemma inv_queued i rest s :
  inv s → Manager.order s = i :: rest →
  ∃ r, Manager.waiting s !! i = Some r ∧ Manager.identity r = i.
Proof.
  intros [[_ Hdom] Hkey] Ho.
  destruct (proj1 (Hdom i)) as [r Hr]; [rewrite Ho; by left|].
  exists r. split; [done | by apply Hkey].
Qed.

Lemma inv_acquire_next s : inv s → inv (snd (Manager.acquire_next s)).
Proof.
  intros H. unfold Manager.acquire_next.
  destruct (Manager.order s) as [|i rest] eqn:Ho; [done|].
  destruct (inv_queued i rest s H Ho) as (r & -> & _).
  apply inv_acquire. by apply inv_pop.
Qed.

Lemma inv_apply_op o s : inv s → inv (apply_op o s).
Proof.
  destruct o; simpl;
    auto using inv_acquire, inv_release, inv_acquire_next.
Qed.

Lemma inv_run ops s : inv s → inv (run ops s).
Proof.
  revert s. induction ops as [|o ops IH]; intros s H; simpl; [done|].
  apply IH. by apply inv_apply_op.
Qed.

Lemma acquire_free r s :
  Manager.held_by s = None →
  Manager.acquire r s
  = (Granted r, Manager.set_held_by (Some (Manager.identity r)) s).
Proof. intros H. unfold Manager.acquire. by rewrite H. Qed.

Lemma acquire_queued r s :
  Manager.held_by s ≠ None → is_Some (Manager.waiting s !! Manager.identity r) →
  Manager.acquire r s
  = (WAITING,
     Manager.set_queue (Manager.order s)
       (<[Manager.identity r := r]> (Manager.waiting s)) s).
Proof.
  intros Hh [old Hq]. unfold Manager.acquire.
  destruct (Manager.held_by s); [|done]. by rewrite Hq.
Qed.

Lemma acquire_order r s :
  Manager.order (snd (Manager.acquire r s))
  = Manager.order s ++ first_attempt (OpAcquire r) s.
Proof.
  unfold Manager.acquire, first_attempt.
  destruct (Manager.held_by s); simpl; [|by rewrite app_nil_r].
  destruct (Manager.waiting s !! Manager.identity r); simpl;
    [by rewrite app_nil_r | done].
Qed.

Lemma release_order i s : Manager.order (release i s) = Manager.order s.
Proof. destruct i; simpl; [by case_decide | done]. Qed.

Lemma acquire_next_pops i rest s :
  inv s → Manager.order s = i :: rest →
  ∃ r, Manager.waiting s !! i = Some r ∧ Manager.identity r = i
       ∧ Manager.acquire_next s
         = Manager.acquire r
             (Manager.set_queue rest (delete i (Manager.waiting s)) s).
Proof.
  intros H Ho. destruct (inv_queued i rest s H Ho) as (r & Hr & Hi).
  exists r. repeat split; [done..|].
  unfold Manager.acquire_next. by rewrite Ho, Hr.
Qed.

(** While every [acquire_next] finds the lock free, what was queued and
    what callers queue since is what [acquire_next] has let in followed by
    what is still queued. *)
Lemma fifo_balance ops s :
  inv s → next_when_free ops s = true →
  Manager.order s ++ first_attempts ops s
  = granted_by_next ops s ++ Manager.order (run ops s).
Proof.
  revert s. induction ops as [|o ops IH]; intros s Hinv Hfree; simpl.
  { by rewrite app_nil_r. }
  simpl in Hfree. apply andb_prop in Hfree as [Ho Hfree].
  specialize (IH _ (inv_apply_op o s Hinv) Hfree).
  destruct o as [r| i |].
  - rewrite app_assoc, <- acquire_order. exact IH.
  - simpl in *. by rewrite release_order in IH.
  - apply bool_decide_eq_true in Ho.
    cbn [first_attempt granted_next apply_op] in *.
    destruct (Manager.order s) as [|i rest] eqn:Hq.
    + unfold Manager.acquire_next in *. rewrite Hq in *. simpl in *.
      by rewrite Hq in IH.
    + destruct (acquire_next_pops i rest s Hinv Hq) as (r & Hr & Hi & Hn).
      rewrite Hn in *. rewrite acquire_free in * by done. simpl in *.
      rewrite Hi in *. f_equal. exact IH.
Qed.

(** C6, as amended.  Take any sequence of manager operations from the
    initial state.  If every [acquire_next] of the sequence is called with
    the lock free, the identities [acquire_next] gives the lock to are, in
    order, a prefix of the identities in the order of their first
    admission attempt (strict FIFO).  And in the state the sequence ends
    in, whatever the sequence: [acquire_next] pops the oldest queued entry
    and calls [acquire] on it, which gives it the lock when the lock is
    free; [acquire] on an already-queued identity, the lock being held,
    returns [WAITING], stores the new request and leaves the queue order
    as it was; and with an empty queue [acquire_next] returns [WAITING]
    and changes nothing, so that a free lock stays free. *)
Theorem acquire_next_fifo (ops : list manager_op) :
  let s := run ops Manager.init in
  (next_when_free ops Manager.init = true →
   granted_by_next ops Manager.init
     `prefix_of` first_attempts ops Manager.init)
  ∧ (∀ i rest, Manager.order s = i :: rest →
       ∃ r, Manager.waiting s !! i = Some r ∧ Manager.identity r = i
         ∧ Manager.acquire_next s
           = Manager.acquire r
               (Manager.set_queue rest (delete i (Manager.waiting s)) s)
         ∧ (Manager.held_by s = None →
              fst (Manager.acquire_next s) = Granted r
              ∧ Manager.held_by (snd (Manager.acquire_next s)) = Some i
              ∧ Manager.order (snd (Manager.acquire_next s)) = rest))
  ∧ (∀ r, Manager.held_by s ≠ None →
       Manager.identity r ∈ Manager.order s →
       fst (Manager.acquire r s) = WAITING
       ∧ Manager.order (snd (Manager.acquire r s)) = Manager.order s
       ∧ Manager.waiting (snd (Manager.acquire r s)) !! Manager.identity r
         = Some r)
  ∧ (Manager.order s = [] → Manager.acquire_next s = (WAITING, s)).
Proof.
  intros s. assert (inv s) as Hs by apply inv_run, inv_init.
  split; [|split; [|split]].
  - intros Hfree. exists (Manager.order s).
    exact (fifo_balance ops Manager.init inv_init Hfree).
  - intros i rest Ho.
    destruct (acquire_next_pops i rest s Hs Ho) as (r & Hr & Hi & Hn).
    exists r. split; [done|]. split; [done|]. split; [done|].
    intros Hf. rewrite Hn, acquire_free by done. simpl.
    by rewrite Hi.
  - intros r Hh Hq. apply Hs in Hq.
    rewrite acquire_queued by done. simpl.
    split; [done|]. split; [done|]. apply lookup_insert_eq.
  - intros Ho. unfold Manager.acquire_next. by rewrite Ho.
Qed.

End ManagerFacts.

Lemma acquire_next_fifo_witness :
  granted_by_next release_frees fifo_run Manager.init
    `prefix_of` first_attempts release_frees fifo_run Manager.init.
Proof.
  apply (proj1 (acquire_next_fifo release_frees fifo_run)).
  vm_compute. reflexivity.
Defined.

(** C6 as stated fails: in [rotating_run], "a" made its first admission
    attempt before "b", and [acquire_next] gives the lock to "b" first. *)
Lemma fifo_broken_by_held_lock :
  first_attempts release_frees rotating_run Manager.init = ["a"; "b"]
  ∧ granted_by_next release_frees rotating_run Manager.init = ["b"]
  ∧ ¬ (granted_by_next release_frees rotating_run Manager.init
         `prefix_of` first_attempts release_frees rotating_run Manager.init).
Proof.
  assert (first_attempts release_frees rotating_run Manager.init = ["a"; "b"])
    as Ha by (vm_compute; reflexivity).
  assert (granted_by_next release_frees rotating_run Manager.init = ["b"])
    as Hg by (vm_compute; reflexivity).
  repeat split; [done..|].
  rewrite Ha, Hg. intros [k Hk]. discriminate Hk.
Qed.

(** ** The download handler *)

Section HandlerFacts.

Variable release_unnamed : option string → option string.

Local Abbreviation release := (Manager.release release_unnamed).
Local Abbreviation alarm_handler := (alarm_handler release_unnamed).
Local Abbreviation deliver_alarm := (deliver_alarm release_unnamed).
Local Abbreviation webdriver_get := (webdriver_get release_unnamed).
Local Abbreviation _download_request := (_download_request release_unnamed).
Local Abbreviation download_request := (download_request release_unnamed).

Ltac unfold_M :=
  unfold bind, when, ret, raise, emit, log, signal_alarm, signal_signal,
    mgr_acquire, mgr_acquire_next, mgr_webdriver, mgr_webdriver_attr,
    mgr_reset_webdriver, mgr_release, yield.

Lemma webdriver_creates m :
  ∃ fresh h m', Manager.webdriver m = (fresh, h, m')
    ∧ Manager._webdriver m' = Some h
    ∧ Manager.webdriver m' = (false, h, m').
Proof.
  unfold Manager.webdriver.
  destruct (Manager._webdriver m) as [h|] eqn:E.
  - exists false, h, m. by rewrite E.
  - by eexists true, _, _.
Qed.

Lemma alarm_handler_run self captured w :
  ∃ fresh h m,
    Manager.webdriver (manager w) = (fresh, h, m)
    ∧ alarm_handler self captured w
      = (Val tt,
         set_manager (release None (Manager.set_webdriver None m)) w,
         [EvWebdriver fresh h; EvSendSignal h SIGTERM; EvRelease None;
          EvLog INFO
            ("WebDriver.get for '" +:+ url captured
             +:+ "' took more than WEBDRIVER_HANG_TIMEOUT ("
             +:+ str_setting (_hang_timeout self) +:+ "s)")]).
Proof.
  destruct (webdriver_creates (manager w)) as (fresh & h & m & E & _).
  exists fresh, h, m. split; [done|].
  unfold alarm_handler.
  unfold_M. rewrite E. reflexivity.
Qed.

Lemma deliver_alarm_returns self w :
  sigalrm w ≠ None →
  ∃ w' t, deliver_alarm self w = (Val tt, w', t)
    ∧ Forall (λ e, is_timer_call e = false) t.
Proof.
  intros Hbound. unfold deliver_alarm.
  destruct (sigalrm w) as [captured|]; [|done].
  destruct (alarm w);
    try (eexists _, []; split; [reflexivity | constructor]).
  destruct (alarm_handler_run self captured (set_alarm None w))
    as (? & ? & ? & _ & ->).
  eexists _, _. split; [reflexivity|]. by repeat constructor.
Qed.

(** The blocking call: the property is read, [get] is called on what it
    gave, and the call ends as [o] says. *)
Lemma webdriver_get_run self u o w :
  handler_ready o w →
  ∃ fresh h m w' t,
    Manager.webdriver (manager w) = (fresh, h, m)
    ∧ webdriver_get self u o w
      = (get_result o, w', EvWebdriver fresh h :: EvGet h u :: t)
    ∧ Forall (λ e, is_timer_call e = false) t
    ∧ (alarm_fires o = false → w' = set_manager m w ∧ t = []).
Proof.
  unfold handler_ready. intros Hready.
  destruct (webdriver_creates (manager w)) as (fresh & h & m & E & _).
  exists fresh, h, m. unfold webdriver_get, get_result. unfold_M.
  rewrite E. destruct (alarm_fires o).
  - destruct (deliver_alarm_returns self (set_manager m w))
      as (w' & t & -> & Ht); [by apply Hready|].
    exists w', (t ++ []). rewrite app_nil_r.
    split; [done|]. split; [|done].
    destruct (get_raises o); by rewrite ?app_nil_r.
  - exists (set_manager m w), []. split; [done|]. split; [|done].
    destruct (get_raises o); reflexivity.
Qed.

(** The [except] clause never raises: it answers with the failure
    response. *)
Lemma except_clause_run self request e w :
  ∃ fresh h m,
    Manager.webdriver (manager w) = (fresh, h, m)
    ∧ _download_request_except self request e w
      = (Val (mkWebdriverResponse (url request)
                (inr (set_page_source e blank_page))),
         set_manager m
           (if truthy (_hang_timeout self) then set_alarm None w else w),
         disarm_events self "settings alarm to 0 on FAILURE" "FAIL: "
           (Manager._webdriver (manager w))
         ++ [EvLog ERROR
               ("Error while downloading " +:+ url request
                +:+ " with webdriver (" +:+ exn_str e +:+ ")");
             EvWebdriver fresh h;
             EvLog DEBUG
               ("FAIL 2. THIS SHOULD BE WEBDRIVER: "
                +:+ str_webdriver (Some h))]).
Proof.
  destruct (webdriver_creates (manager w)) as (fresh & h & m & E & Hm & _).
  exists fresh, h, m. split; [done|].
  unfold _download_request_except, disarm_events. unfold_M.
  destruct (truthy (_hang_timeout self)); cbn; rewrite E; cbn;
    by rewrite Hm.
Qed.

(** Nor does the [else] clause: it answers with the success response. *)
Lemma else_clause_run self request w :
  ∃ fresh h m,
    Manager.webdriver (manager w) = (fresh, h, m)
    ∧ Manager._webdriver m = Some h
    ∧ _download_request_else self request w
      = (Val (mkWebdriverResponse (url request) (inl h)),
         set_manager m
           (if truthy (_hang_timeout self) then set_alarm None w else w),
         disarm_events self "settings alarm to 0 on SUCCESS" "YEAH: "
           (Manager._webdriver (manager w))
         ++ [EvWebdriver fresh h]).
Proof.
  destruct (webdriver_creates (manager w)) as (fresh & h & m & E & Hm & _).
  exists fresh, h, m. split; [done|]. split; [done|].
  unfold _download_request_else, disarm_events. unfold_M.
  destruct (truthy (_hang_timeout self)); cbn; rewrite E; reflexivity.
Qed.

Lemma bind_val {A B} (m : M A) (k : A → M B) w a w1 t1 r w2 t2 :
  m w = (Val a, w1, t1) → k a w1 = (r, w2, t2) →
  bind m k w = (r, w2, t1 ++ t2).
Proof. intros Hm Hk. unfold bind. by rewrite Hm, Hk. Qed.

Lemma bind_exc {A B} (m : M A) (k : A → M B) w e w1 t1 :
  m w = (Exc e, w1, t1) → bind m k w = (Exc e, w1, t1).
Proof. intros Hm. unfold bind. by rewrite Hm. Qed.

(** What [_download_request] does, step by step: the debug line and the
    arming of the alarm, [acquire], the blocking call, the clause the call
    leads to, and the release of the [finally] clause. *)
Lemma _download_request_run self request o w :
  timeout_accepted self = true → handler_ready o w →
  ∃ res m0 fresh h m1 w0 w1 t1 resp w2 t2,
    Manager.acquire request (manager w) = (res, m0)
    ∧ Manager.webdriver m0 = (fresh, h, m1)
    ∧ manager w0 = m0 ∧ sigalrm w0 = sigalrm w
    ∧ webdriver_get self (url request) o w0
      = (get_result o, w1, EvWebdriver fresh h :: EvGet h (url request) :: t1)
    ∧ Forall (λ e, is_timer_call e = false) t1
    ∧ (alarm_fires o = false → w1 = set_manager m1 w0 ∧ t1 = [])
    ∧ match get_raises o with
      | Some e => _download_request_except self request e w1
      | None => _download_request_else self request w1
      end = (Val resp, w2, t2)
    ∧ (truthy (_hang_timeout self) = false →
       Forall (λ e, is_timer_call e = false) t2)
    ∧ _download_request self request o w
      = (Val resp, set_manager (release None (manager w2)) w2,
         EvLog DEBUG ("Downloading " +:+ url request +:+ " with webdriver")
         :: arm_events self
         ++ EvAcquire request res :: EvWebdriver fresh h
         :: EvGet h (url request) :: t1 ++ t2 ++ [EvRelease None]).
Proof.
  intros Hfits Hready.
  destruct (Manager.acquire request (manager w)) as [res m0] eqn:Ha.
  set (w0 := set_manager m0
               (if truthy (_hang_timeout self)
                then set_alarm
                       (if (default 0 (_hang_timeout self) =? 0)%Z
                        then None
                        else Some (default 0%Z (_hang_timeout self))) w
                else w)).
  assert (sigalrm w0 = sigalrm w) as Hs0
    by (unfold w0; by destruct (truthy _)).
  destruct (webdriver_get_run self (url request) o w0)
    as (fresh & h & m1 & w1 & t1 & Hw & Hg & Ht & Hq).
  { unfold handler_ready in *. by rewrite Hs0. }
  assert (fits_c_int (default 0%Z (_hang_timeout self)) = true) as Hfit0.
  { unfold timeout_accepted in Hfits.
    by destruct (_hang_timeout self). }
  assert (manager w0 = m0) as Hm0
    by (unfold w0; by destruct (truthy _)).
  rewrite Hm0 in Hw.
  assert (∃ resp w2 t2,
            match get_raises o with
            | Some e => _download_request_except self request e w1
            | None => _download_request_else self request w1
            end = (Val resp, w2, t2)
            ∧ (truthy (_hang_timeout self) = false →
               Forall (λ e, is_timer_call e = false) t2))
    as (resp & w2 & t2 & Hc & Hnt).
  { destruct (get_raises o) as [e|].
    - destruct (except_clause_run self request e w1)
        as (? & ? & ? & _ & ->).
      eexists _, _, _. split; [reflexivity|].
      unfold disarm_events. intros ->. by repeat constructor.
    - destruct (else_clause_run self request w1)
        as (? & ? & ? & _ & _ & ->).
      eexists _, _, _. split; [reflexivity|].
      unfold disarm_events. intros ->. by repeat constructor. }
  exists res, m0, fresh, h, m1, w0, w1, t1, resp, w2, t2.
  repeat (split; [first [done | by unfold w0; destruct (truthy _)]|]).
  unfold _download_request, arm_events, try_finally, try_except_else.
  unfold bind at 1 2 3, when, log, emit, signal_alarm, ret,
    mgr_acquire, mgr_release.
  rewrite Hfit0.
  destruct (truthy (_hang_timeout self)); cbn; rewrite Ha; cbn;
    fold w0; rewrite Hg; unfold get_result in *;
    destruct (get_raises o); cbn; rewrite Hc; cbn;
    by rewrite <- ?app_assoc.
Qed.

Lemma release_webdriver i m :
  Manager._webdriver (release i m) = Manager._webdriver m.
Proof. destruct i; simpl; [by case_decide | done]. Qed.

Lemma webdriver_again m fresh h m' :
  Manager.webdriver m = (fresh, h, m') →
  Manager._webdriver m' = Some h ∧ Manager.webdriver m' = (false, h, m').
Proof.
  unfold Manager.webdriver.
  destruct (Manager._webdriver m) as [h0|] eqn:E; intros [= <- <- <-].
  - by rewrite E.
  - done.
Qed.

Lemma release_created :
  ∀ i m, Manager.created (release i m) = Manager.created m.
Proof. intros [x|] m; simpl; [by case_decide | done]. Qed.

(** C1.  With a hang timeout that [signal.alarm] takes, and a handler
    bound if the alarm goes off: whatever the request, the state of the
    world and the way the blocking call goes (it returns or it raises, the
    alarm going off meanwhile or not), [_download_request] does not raise:
    it returns a response for the request's URL, which holds the manager's
    webdriver when [webdriver.get] returned and the exception, with the
    blank page attached, when it raised; and the last thing it does is the
    [release()] of its [finally] clause. *)
Theorem download_always_answers self request o w :
  timeout_accepted self = true → handler_ready o w →
  ∃ resp w' t,
    _download_request self request o w
    = (Val resp, w', t ++ [EvRelease None])
    ∧ response_url resp = url request
    ∧ match get_raises o with
      | None =>
          ∃ h, response_arg resp = inl h
               ∧ Manager._webdriver (manager w') = Some h
      | Some e => response_arg resp = inr (set_page_source e blank_page)
      end.
Proof.
  intros Hfits Hready.
  destruct (_download_request_run self request o w Hfits Hready)
    as (res & m0 & fresh & h & m1 & w0 & w1 & t1 & resp & w2 & t2
        & _ & _ & _ & _ & _ & _ & _ & Hc & _ & ->).
  exists resp. eexists.
  exists (EvLog DEBUG ("Downloading " +:+ url request +:+ " with webdriver")
          :: arm_events self
          ++ EvAcquire request res :: EvWebdriver fresh h
          :: EvGet h (url request) :: t1 ++ t2).
  split.
  { repeat (progress (simpl; rewrite <- ?app_assoc)). reflexivity. }
  destruct (get_raises o) as [e|].
  - destruct (except_clause_run self request e w1)
      as (? & ? & ? & _ & He). rewrite He in Hc.
    by injection Hc as <- _ _.
  - destruct (else_clause_run self request w1)
      as (? & h' & m' & _ & Hm' & He). rewrite He in Hc.
    injection Hc as <- <- _. split; [done|].
    exists h'. split; [done|].
    cbn. exact Hm'.
Qed.

(** C8, on the code.  With a hang timeout that [signal.alarm] takes, when
    the blocking call raises [e] and the alarm did not go off: after
    [acquire] and the call, the handler disarms the alarm if a hang
    timeout is configured, attaches the blank page to [e], logs the error,
    reads the [webdriver] property once, calls [release()], and returns
    the failure response, which carries [e].  The read of the property
    creates nothing: [_webdriver] still holds the instance [get] was
    called on and the property gives that instance back, so that the next
    caller finds the instance whose call failed. *)
Theorem failure_path self request o e w :
  timeout_accepted self = true →
  alarm_fires o = false → get_raises o = Some e →
  ∃ res m0 fresh h m1 w',
    Manager.acquire request (manager w) = (res, m0)
    ∧ Manager.webdriver m0 = (fresh, h, m1)
    ∧ _download_request self request o w
      = (Val (mkWebdriverResponse (url request)
                (inr (set_page_source e blank_page))),
         w',
         [EvLog DEBUG ("Downloading " +:+ url request +:+ " with webdriver")]
         ++ arm_events self
         ++ [EvAcquire request res; EvWebdriver fresh h;
             EvGet h (url request)]
         ++ disarm_events self "settings alarm to 0 on FAILURE" "FAIL: "
              (Some h)
         ++ [EvLog ERROR
               ("Error while downloading " +:+ url request
                +:+ " with webdriver (" +:+ exn_str e +:+ ")");
             EvWebdriver false h;
             EvLog DEBUG
               ("FAIL 2. THIS SHOULD BE WEBDRIVER: "
                +:+ str_webdriver (Some h));
             EvRelease None])
    ∧ page_source (set_page_source e blank_page) = Some blank_page
    ∧ manager w' = release None m1
    ∧ Manager._webdriver (manager w') = Some h
    ∧ Manager.created (manager w') = Manager.created m1
    ∧ (truthy (_hang_timeout self) = true → alarm w' = None).
Proof.
  intros Hfits Hfire Hraise.
  destruct (_download_request_run self request o w Hfits)
    as (res & m0 & fresh & h & m1 & w0 & w1 & t1 & resp & w2 & t2
        & Ha & Hw & Hm0 & _ & _ & _ & Hq & Hc & _ & Hrun).
  { unfold handler_ready. by rewrite Hfire. }
  destruct (Hq Hfire) as [-> ->]. rewrite Hraise in Hc.
  destruct (webdriver_again _ _ _ _ Hw) as [Hsome Hw'].
  destruct (except_clause_run self request e (set_manager m1 w0))
    as (fresh' & h' & m' & Hw'' & He).
  cbn in Hw''. rewrite Hw' in Hw''. injection Hw'' as <- <- <-.
  rewrite He in Hc. injection Hc as <- <- <-.
  exists res, m0, fresh, h, m1. eexists.
  split; [done|]. split; [done|]. split.
  { rewrite Hrun, Hsome. simpl. by rewrite <- !app_assoc. }
  split; [done|]. cbn [manager set_manager]. split; [done|].
  split; [cbn; exact Hsome|].
  split; [first [apply release_created | done]|].
  by intros ->.
Qed.

(** C10.  With a hang timeout that [signal.alarm] takes, and a handler
    bound if the alarm goes off: [_download_request] calls [acquire] on
    the request and, with no look at what [acquire] answered, reads the
    [webdriver] property and calls [get] on the request's URL; a held lock
    makes the answer [WAITING] and the call is made all the same.  The
    [release] that ends the trace is passed no identity. *)
Theorem acquire_result_ignored self request o w :
  timeout_accepted self = true → handler_ready o w →
  ∃ res m0 fresh h resp w' post,
    Manager.acquire request (manager w) = (res, m0)
    ∧ (Manager.held_by (manager w) ≠ None → res = WAITING)
    ∧ _download_request self request o w
      = (Val resp, w',
         EvLog DEBUG ("Downloading " +:+ url request +:+ " with webdriver")
         :: arm_events self
         ++ EvAcquire request res :: EvWebdriver fresh h
         :: EvGet h (url request) :: post ++ [EvRelease None]).
Proof.
  intros Hfits Hready.
  destruct (_download_request_run self request o w Hfits Hready)
    as (res & m0 & fresh & h & m1 & w0 & w1 & t1 & resp & w2 & t2
        & Ha & _ & _ & _ & _ & _ & _ & _ & _ & Hrun).
  exists res, m0, fresh, h, resp. eexists _, (t1 ++ t2).
  split; [done|]. split.
  - intros Hheld. unfold Manager.acquire in Ha.
    destruct (Manager.held_by (manager w)); [|done].
    by destruct (Manager.waiting (manager w) !! Manager.identity request);
      injection Ha as <- _.
  - rewrite Hrun. by rewrite <- app_assoc.
Qed.

(** C2, on the code.  The alarm handler reads the [webdriver] property,
    sends [SIGTERM] to the process of that webdriver, sets [_webdriver]
    back to [None], calls [release()], and logs the message about the
    hang: at level [INFO], and nothing at level [WARNING]. *)
Theorem alarm_handler_logs_at_info self captured w :
  ∃ fresh h w',
    alarm_handler self captured w
    = (Val tt, w',
       [EvWebdriver fresh h; EvSendSignal h SIGTERM; EvRelease None;
        EvLog INFO
          ("WebDriver.get for '" +:+ url captured
           +:+ "' took more than WEBDRIVER_HANG_TIMEOUT ("
           +:+ str_setting (_hang_timeout self) +:+ "s)")])
    ∧ Manager._webdriver (manager w') = None
    ∧ ∀ msg, (WARNING, msg) ∉
        logged [EvWebdriver fresh h; EvSendSignal h SIGTERM; EvRelease None;
                EvLog INFO
                  ("WebDriver.get for '" +:+ url captured
                   +:+ "' took more than WEBDRIVER_HANG_TIMEOUT ("
                   +:+ str_setting (_hang_timeout self) +:+ "s)")].
Proof.
  destruct (alarm_handler_run self captured w) as (fresh & h & m & _ & ->).
  exists fresh, h. eexists. split; [reflexivity|]. split.
  - reflexivity.
  - intros msg. cbn. intros Hin. apply list_elem_of_singleton in Hin.
    discriminate.
Qed.

(** The blocking call, however it ends, calls neither [signal.signal] nor
    [signal.alarm]. *)
Lemma webdriver_get_quiet self u o w r w' t :
  webdriver_get self u o w = (r, w', t) →
  Forall (λ e, is_timer_call e = false) t.
Proof.
  unfold webdriver_get, deliver_alarm, alarm_handler.
  unfold bind, when, ret, raise, emit, log, mgr_webdriver,
    mgr_reset_webdriver, mgr_release.
  destruct (Manager.webdriver (manager w)) as [[fresh h] m]. cbn.
  destruct (alarm_fires o); cbn.
  - destruct (alarm w); cbn; [destruct (sigalrm w); cbn|].
    + destruct (Manager.webdriver m) as [[fresh' h'] m']. cbn.
      destruct (get_raises o); intros [= <- <- <-]; by repeat constructor.
    + intros [= <- <- <-]; by repeat constructor.
    + destruct (get_raises o); intros [= <- <- <-]; by repeat constructor.
  - destruct (get_raises o); intros [= <- <- <-]; by repeat constructor.
Qed.

(** With no hang timeout, [_download_request] calls neither, however it
    ends. *)
Lemma _download_request_quiet self request o w r w' t :
  truthy (_hang_timeout self) = false →
  _download_request self request o w = (r, w', t) →
  Forall (λ e, is_timer_call e = false) t.
Proof.
  intros Ht. unfold _download_request, try_finally, try_except_else.
  rewrite Ht. unfold bind, when, log, emit, ret, mgr_acquire, mgr_release.
  destruct (Manager.acquire request (manager w)) as [res m0].
  cbn -[webdriver_get _download_request_except _download_request_else].
  destruct (webdriver_get self (url request) o (set_manager m0 w))
    as [[r1 w1] t1] eqn:Hg.
  pose proof (webdriver_get_quiet _ _ _ _ _ _ _ Hg) as Ht1.
  destruct r1 as [[]|e|];
    cbn -[_download_request_except _download_request_else].
  - destruct (else_clause_run self request w1) as (? & ? & ? & _ & _ & ->).
    unfold disarm_events. rewrite Ht. cbn. intros [= <- <- <-].
    constructor; [reflexivity|]. constructor; [reflexivity|].
    rewrite !Forall_app. split; [|by repeat constructor].
    split; [done|]. by repeat constructor.
  - destruct (except_clause_run self request e w1) as (? & ? & ? & _ & ->).
    unfold disarm_events. rewrite Ht. cbn. intros [= <- <- <-].
    constructor; [reflexivity|]. constructor; [reflexivity|].
    rewrite !Forall_app. split; [|by repeat constructor].
    split; [done|]. by repeat constructor.
  - intros [= <- <- <-].
    constructor; [reflexivity|]. by constructor.
Qed.

(** C9.  With [WEBDRIVER_BROWSER] absent, or for a request that is not
    a webdriver request, [download_request] hands the request, as it is,
    to the fallback handler and does nothing else: the manager, the alarm
    and the signal handler are left as they were.  And with
    [WEBDRIVER_HANG_TIMEOUT] absent or zero, no call of [download_request]
    binds the signal handler or touches the alarm. *)
Theorem fallback_and_timer_gates (s : settings) request o w :
  ((WEBDRIVER_BROWSER s = None ∨ is_WebdriverRequest request = false) →
   download_request (__init__ s) request o w
   = (Val (FromFallback request), w, [EvFallback request]))
  ∧ ((WEBDRIVER_HANG_TIMEOUT s = None
      ∨ WEBDRIVER_HANG_TIMEOUT s = Some 0%Z) →
     ∀ r w' t,
       download_request (__init__ s) request o w = (r, w', t) →
       Forall (λ e, is_timer_call e = false) t).
Proof.
  split.
  - intros Hoff. unfold download_request.
    assert (_enabled (__init__ s) && is_WebdriverRequest request = false)
      as ->; [|reflexivity].
    destruct Hoff as [Hb| ->]; [|apply andb_false_r].
    simpl. by rewrite Hb.
  - intros Hzero r w' t.
    assert (truthy (_hang_timeout (__init__ s)) = false) as Hf.
    { simpl. by destruct Hzero as [-> | ->]. }
    unfold download_request.
    destruct (_enabled (__init__ s) && is_WebdriverRequest request).
    + rewrite Hf. unfold when.
      destruct (is_WebdriverActionRequest request).
      { cbn. intros [= <- <- <-]. constructor. }
      unfold bind, ret.
      destruct (_download_request (__init__ s) request o w)
        as [[r1 w1] t1] eqn:Hrun.
      pose proof (_download_request_quiet _ _ _ _ _ _ _ Hf Hrun) as Hq.
      destruct r1; intros [= <- <- <-]; by rewrite ?app_nil_r.
    + intros [= <- <- <-]. by repeat constructor.
Qed.

End HandlerFacts.

(** ** The spider middleware *)

Section MiddlewareFacts.

Variable release_unnamed : option string → option string.

Local Abbreviation release := (Manager.release release_unnamed).
Local Abbreviation process_spider_output :=
  (process_spider_output release_unnamed).
Local Abbreviation process_spider_exception :=
  (process_spider_exception release_unnamed).

Lemma acquire_same r s res s' :
  Manager.acquire r s = (res, s') → res = WAITING ∨ res = Granted r.
Proof.
  unfold Manager.acquire. destruct (Manager.held_by s).
  - destruct (Manager.waiting s !! Manager.identity r);
      intros [= <- _]; by left.
  - intros [= <- _]. by right.
Qed.

Lemma non_resource_keep x l :
  is_resource_bound x = false → non_resource (x :: l) = x :: non_resource l.
Proof. intros H. unfold non_resource. by rewrite filter_cons_True. Qed.

Lemma non_resource_drop x l :
  is_resource_bound x = true → non_resource (x :: l) = non_resource l.
Proof.
  intros H. unfold non_resource. rewrite filter_cons_False; [done|].
  by rewrite H.
Qed.

Lemma resource_bound_keep x l :
  is_resource_bound x = true →
  resource_bound (x :: l) = x :: resource_bound l.
Proof. intros H. unfold resource_bound. by rewrite filter_cons_True. Qed.

Lemma resource_bound_drop x l :
  is_resource_bound x = false → resource_bound (x :: l) = resource_bound l.
Proof.
  intros H. unfold resource_bound. rewrite filter_cons_False; [done|].
  by rewrite H.
Qed.

(** One turn of the loop of [_process_requests], for an item that is
    passed on without a word to the manager. *)
Lemma _process_requests_pass x items start w :
  is_resource_bound x = false →
  _process_requests (x :: items) start w
  = let '(r, w', t) := _process_requests items start w in
    (r, w', EvYield x :: t).
Proof.
  intros Hx. destruct x as [d|q]; simpl in *.
  - unfold bind, yield, emit. by destruct (_process_requests items start w)
      as [[? ?] ?].
  - rewrite Hx. unfold bind, yield, emit.
    by destruct (_process_requests items start w) as [[? ?] ?].
Qed.

(** One turn of the loop, for a webdriver request that is not turned
    down. *)
Lemma _process_requests_acquire q items start w :
  is_WebdriverRequest q = true →
  start && is_WebdriverActionRequest q = false →
  _process_requests (ARequest q :: items) start w
  = let '(res, m) := Manager.acquire q (manager w) in
    let '(r, w', t) := _process_requests items start (set_manager m w) in
    (r, w',
     EvAcquire q res
     :: match res with
        | WAITING => t
        | Granted q' => EvYield (ARequest q') :: t
        end).
Proof.
  intros Hq Hs. simpl. rewrite Hq, Hs. unfold bind, mgr_acquire.
  destruct (Manager.acquire q (manager w)) as [[|q'] m]; simpl.
  - by destruct (_process_requests items start (set_manager m w))
      as [[? ?] ?].
  - unfold yield, emit.
    by destruct (_process_requests items start (set_manager m w))
      as [[? ?] ?].
Qed.

(** One turn of the loop, for an action request among the start
    requests. *)
Lemma _process_requests_reject q items w :
  is_WebdriverRequest q = true → is_WebdriverActionRequest q = true →
  _process_requests (ARequest q :: items) true w
  = (Exc (mkExn IgnoreRequest error_msg None), w, []).
Proof. intros Hq Ha. simpl. by rewrite Hq, Ha. Qed.

Lemma read_acquire q res t :
  yielded (EvAcquire q res :: t) = yielded t
  ∧ acquire_arguments (EvAcquire q res :: t)
    = ARequest q :: acquire_arguments t
  ∧ not_told_to_wait (EvAcquire q res :: t)
    = match res with
      | Granted _ => ARequest q :: not_told_to_wait t
      | WAITING => not_told_to_wait t
      end.
Proof. by destruct res. Qed.

Lemma read_yield x t :
  yielded (EvYield x :: t) = x :: yielded t
  ∧ acquire_arguments (EvYield x :: t) = acquire_arguments t
  ∧ not_told_to_wait (EvYield x :: t) = not_told_to_wait t.
Proof. done. Qed.

(** A batch in which nothing is turned down is gone through to its end. *)
Lemma _process_requests_run items start w :
  (∀ x, x ∈ items → start && is_action x = false) →
  ∃ w' t,
    _process_requests items start w = (Val tt, w', t)
    ∧ non_resource (yielded t) = non_resource items
    ∧ acquire_arguments t = resource_bound items
    ∧ resource_bound (yielded t) = not_told_to_wait t
    ∧ yielded t `sublist_of` items.
Proof.
  revert w. induction items as [|x items IH]; intros w Hok.
  { exists w, []. by repeat split. }
  assert (start && is_action x = false) as Hx by (apply Hok; by left).
  assert (∀ y, y ∈ items → start && is_action y = false) as Hrest
    by (intros y Hy; apply Hok; by right).
  destruct (is_resource_bound x) eqn:Hrb.
  - destruct x as [d|q]; [done|]. simpl in Hrb, Hx. rewrite Hrb in Hx.
    rewrite _process_requests_acquire by done.
    destruct (Manager.acquire q (manager w)) as [res m] eqn:Ha.
    destruct (IH (set_manager m w) Hrest)
      as (w' & t & -> & Hn & Hc & Hy & Hs).
    eexists _, _. split; [reflexivity|].
    rewrite non_resource_drop, resource_bound_keep by done.
    destruct (acquire_same _ _ _ _ Ha) as [-> | ->].
    + destruct (read_acquire q WAITING t) as (-> & -> & ->).
      rewrite Hc. repeat split; [done..|]. by apply sublist_cons.
    + destruct (read_acquire q (Granted q) (EvYield (ARequest q) :: t))
        as (-> & -> & ->).
      destruct (read_yield (ARequest q) t) as (-> & -> & ->).
      rewrite Hc, non_resource_drop, resource_bound_keep, Hy by done.
      repeat split; [done..|]. by apply sublist_skip.
  - rewrite _process_requests_pass by done.
    destruct (IH w Hrest) as (w' & t & -> & Hn & Hc & Hy & Hs).
    eexists _, _. split; [reflexivity|].
    destruct (read_yield x t) as (-> & -> & ->).
    rewrite !non_resource_keep, !resource_bound_drop by done.
    rewrite Hn. repeat split; [done..|]. by apply sublist_skip.
Qed.

(** Going through [l1 ++ l2] is going through [l1] and, if that ends
    well, through [l2]. *)
Lemma _process_requests_app l1 l2 start w w1 t1 :
  _process_requests l1 start w = (Val tt, w1, t1) →
  _process_requests (l1 ++ l2) start w
  = let '(r, w2, t2) := _process_requests l2 start w1 in (r, w2, t1 ++ t2).
Proof.
  revert w t1. induction l1 as [|x l1 IH]; intros w t1 Hrun.
  { simpl in Hrun. unfold ret in Hrun. injection Hrun as <- <-. simpl.
    by destruct (_process_requests l2 start w) as [[? ?] ?]. }
  rewrite <- app_comm_cons.
  destruct (is_resource_bound x) eqn:Hrb.
  - destruct x as [d|q]; [done|]. simpl in Hrb.
    destruct (start && is_WebdriverActionRequest q) eqn:Hs.
    { apply andb_prop in Hs as [-> Hact].
      by rewrite _process_requests_reject in Hrun. }
    rewrite _process_requests_acquire in * by done.
    destruct (Manager.acquire q (manager w)) as [res m].
    destruct (_process_requests l1 start (set_manager m w))
      as [[r1 w1'] t1'] eqn:H1.
    injection Hrun as -> -> <-. rewrite (IH _ _ H1).
    destruct (_process_requests l2 start w1) as [[? ?] ?].
    by destruct res.
  - rewrite _process_requests_pass in * by done.
    destruct (_process_requests l1 start w) as [[r1 w1'] t1'] eqn:H1.
    injection Hrun as -> -> <-. rewrite (IH _ _ H1).
    by destruct (_process_requests l2 start w1) as [[? ?] ?].
Qed.

(** The start requests never bring an action request to [acquire]. *)
Lemma start_never_acquires_action items w r w' t :
  _process_requests items true w = (r, w', t) →
  ∀ q, ARequest q ∈ acquire_arguments t →
       is_WebdriverActionRequest q = false.
Proof.
  revert w t. induction items as [|x items IH]; intros w t Hrun q Hq.
  { simpl in Hrun. unfold ret in Hrun. injection Hrun as <- <- <-.
    by apply elem_of_nil in Hq. }
  destruct (is_resource_bound x) eqn:Hrb.
  - destruct x as [d|q0]; [done|]. simpl in Hrb.
    destruct (is_WebdriverActionRequest q0) eqn:Hact.
    { rewrite _process_requests_reject in Hrun by done.
      injection Hrun as <- <- <-. by apply elem_of_nil in Hq. }
    rewrite _process_requests_acquire in Hrun by done.
    destruct (Manager.acquire q0 (manager w)) as [res m].
    destruct (_process_requests items true (set_manager m w))
      as [[r1 w1] t1] eqn:H1.
    injection Hrun as <- <- <-.
    destruct (read_acquire q0 res
                match res with
                | WAITING => t1
                | Granted q' => EvYield (ARequest q') :: t1
                end) as (_ & Hargs & _).
    rewrite Hargs in Hq. apply elem_of_cons in Hq as [[= ->]|Hq]; [done|].
    apply (IH _ _ H1). destruct res as [|q']; [done|].
    by destruct (read_yield (ARequest q') t1) as (_ & <- & _).
  - rewrite _process_requests_pass in Hrun by done.
    destruct (_process_requests items true w) as [[r1 w1] t1] eqn:H1.
    injection Hrun as <- <- <-.
    destruct (read_yield x t1) as (_ & Hargs & _). rewrite Hargs in Hq.
    by apply (IH _ _ H1).
Qed.

(** C3.  For a response to a webdriver request, [process_spider_output]
    first goes through the spider's result as [_process_requests] does,
    yielding what that yields; then it calls [release] with the URL of the
    response's request, then [acquire_next]; and if [acquire_next] answers
    with a request it yields that request with [dont_filter] set, and
    nothing more if it answers [WAITING]. *)
Theorem spider_output_releases_then_requeues response result w :
  is_WebdriverRequest (request response) = true →
  ∃ w1 t1 next m,
    _process_requests result false w = (Val tt, w1, t1)
    ∧ Manager.acquire_next
        (release (Some (url (request response))) (manager w1))
      = (next, m)
    ∧ process_spider_output response result w
      = (Val tt, set_manager m w1,
         t1 ++ [EvRelease (Some (url (request response)));
                EvAcquireNext next]
         ++ match next with
            | Granted r => [EvYield (ARequest (replace_dont_filter r true))]
            | WAITING => []
            end)
    ∧ match next with
      | Granted r =>
          ∃ r', yielded
                  (t1 ++ [EvRelease (Some (url (request response)));
                          EvAcquireNext next; EvYield (ARequest r')])
                = yielded t1 ++ [ARequest r']
                ∧ r' = replace_dont_filter r true
                ∧ dont_filter r' = true ∧ url r' = url r ∧ kind r' = kind r
      | WAITING =>
          yielded (t1 ++ [EvRelease (Some (url (request response)));
                          EvAcquireNext next])
          = yielded t1
      end.
Proof.
  intros Hwd.
  destruct (_process_requests_run result false w) as (w1 & t1 & H1 & _);
    [done|].
  destruct (Manager.acquire_next
              (release (Some (url (request response))) (manager w1)))
    as [next m] eqn:Hn.
  exists w1, t1, next, m. split; [done|]. split; [done|]. split.
  - unfold process_spider_output. rewrite Hwd.
    erewrite bind_val; [reflexivity|exact H1|].
    unfold bind, mgr_release, mgr_acquire_next, yield, emit, ret.
    cbn [manager set_manager]. rewrite Hn. by destruct next.
  - unfold yielded. destruct next as [|r].
    + rewrite omap_app. simpl. by rewrite app_nil_r.
    + eexists. rewrite omap_app. simpl. by repeat split.
Qed.

(** C4, as amended.  For a batch of start requests with no action request
    in it, [process_start_requests] goes through the whole batch without
    raising; the items that are not webdriver requests are yielded as they
    are and in their order; [acquire] is called on each webdriver request,
    in order; the webdriver requests yielded are those [acquire] did not
    answer with [WAITING], as they were; and what is yielded is the batch
    with some items left out, the order kept. *)
Theorem start_requests_filtered start_requests w :
  Forall (λ x, is_action x = false) start_requests →
  ∃ w' t,
    process_start_requests start_requests w = (Val tt, w', t)
    ∧ non_resource (yielded t) = non_resource start_requests
    ∧ acquire_arguments t = resource_bound start_requests
    ∧ resource_bound (yielded t) = not_told_to_wait t
    ∧ yielded t `sublist_of` start_requests.
Proof.
  intros Hno. apply _process_requests_run.
  intros x Hx. rewrite Forall_forall in Hno. by rewrite (Hno x Hx).
Qed.

(** C7.  An action request among the start requests: when the items
    before it are gone through without raising, the generator raises
    [IgnoreRequest] on reaching it, with the trace and the world (the
    manager's lock and queue among it) exactly as the items before it left
    them; and [acquire] is not called on an action request. *)
Theorem action_start_request_rejected before a after w w1 t1 :
  is_WebdriverRequest a = true → is_WebdriverActionRequest a = true →
  process_start_requests before w = (Val tt, w1, t1) →
  process_start_requests (before ++ ARequest a :: after) w
  = (Exc (mkExn IgnoreRequest error_msg None), w1, t1)
  ∧ ARequest a ∉ acquire_arguments t1.
Proof.
  intros Hwd Hact Hrun. unfold process_start_requests in *. split.
  - rewrite (_process_requests_app _ _ _ _ _ _ Hrun).
    rewrite _process_requests_reject by done. by rewrite app_nil_r.
  - intros Hin.
    rewrite (start_never_acquires_action _ _ _ _ _ Hrun a Hin) in Hact.
    discriminate.
Qed.

(** What [process_spider_exception] does for a response to a webdriver
    request: [release] with the URL of the response's request, then
    [acquire_next], and the answer of [acquire_next] in a list. *)
Lemma process_spider_exception_run response exception w :
  is_WebdriverRequest (request response) = true →
  process_spider_exception response exception w
  = let '(next, m) :=
      Manager.acquire_next
        (release (Some (url (request response))) (manager w)) in
    (Val (Some [next]), set_manager m w,
     [EvRelease (Some (url (request response))); EvAcquireNext next]).
Proof.
  intros Hwd. unfold process_spider_exception. rewrite Hwd.
  unfold bind, mgr_release, mgr_acquire_next, ret.
  cbn [manager set_manager].
  by destruct (Manager.acquire_next _) as [next m].
Qed.

(** C5, on the code.  For a response to a webdriver request, with
    nothing in the wait queue: [process_spider_exception] calls [release]
    with the URL of the response's request, then [acquire_next], and
    returns the one-element list [[WAITING]]; the element is the sentinel
    and no request. *)
Theorem spider_exception_returns_waiting response exception w :
  is_WebdriverRequest (request response) = true →
  Manager.order (manager w) = [] →
  process_spider_exception response exception w
  = (Val (Some [WAITING]),
     set_manager (release (Some (url (request response))) (manager w)) w,
     [EvRelease (Some (url (request response))); EvAcquireNext WAITING]).
Proof.
  intros Hwd Hq. rewrite process_spider_exception_run by done.
  unfold Manager.acquire_next.
  by rewrite release_order, Hq.
Qed.

End MiddlewareFacts.

(** ** The properties at the sample inputs *)

Lemma download_always_answers_witness :
  ∃ resp w' t,
    _download_request release_frees handler30 req_a
      (mkGetOutcome true (Some connection_refused)) world_bound
    = (Val resp, w', t ++ [EvRelease None])
    ∧ response_url resp = "http://a/"
    ∧ response_arg resp = inr (set_page_source connection_refused blank_page).
Proof.
  apply (download_always_answers release_frees handler30 req_a
           (mkGetOutcome true (Some connection_refused)) world_bound);
    [reflexivity | intros _; discriminate].
Defined.

Lemma failure_path_witness :
  ∃ w',
    _download_request release_frees handler30 req_a
      (mkGetOutcome false (Some connection_refused)) world0
    = (Val (mkWebdriverResponse "http://a/"
              (inr (set_page_source connection_refused blank_page))),
       w',
       [EvLog DEBUG "Downloading http://a/ with webdriver";
        EvAlarm 30;
        EvAcquire req_a (Granted req_a); EvWebdriver true 0;
        EvGet 0 "http://a/";
        EvLog DEBUG "settings alarm to 0 on FAILURE";
        EvLog DEBUG "FAIL: <WebDriver 0>";
        EvAlarm 0;
        EvLog ERROR
          "Error while downloading http://a/ with webdriver (connection refused)";
        EvWebdriver false 0;
        EvLog DEBUG "FAIL 2. THIS SHOULD BE WEBDRIVER: <WebDriver 0>";
        EvRelease None])
    ∧ alarm w' = None.
Proof.
  destruct (failure_path release_frees handler30 req_a
              (mkGetOutcome false (Some connection_refused))
              connection_refused world0 eq_refl eq_refl eq_refl)
    as (res & m0 & fresh & h & m1 & w' & Ha & Hw & Hrun & _ & _ & _ & _
        & Hal).
  injection Ha as <- <-. injection Hw as <- <- <-.
  exists w'. split; [exact Hrun | by apply Hal].
Defined.

Lemma acquire_result_ignored_witness :
  ∃ fresh h resp w' post,
    _download_request release_frees handler30 req_b
      (mkGetOutcome true None)
      (mkWorld (manager world_a) None (Some req_b))
    = (Val resp, w',
       [EvLog DEBUG "Downloading http://b/ with webdriver"; EvAlarm 30;
        EvAcquire req_b WAITING; EvWebdriver fresh h; EvGet h "http://b/"]
       ++ post ++ [EvRelease None]).
Proof.
  destruct (acquire_result_ignored release_frees handler30 req_b
              (mkGetOutcome true None)
              (mkWorld (manager world_a) None (Some req_b)))
    as (res & m0 & fresh & h & resp & w' & post & Ha & Hres & Hrun);
    [reflexivity | by intros _ |].
  assert (res = WAITING) as -> by (apply Hres; vm_compute; discriminate).
  exists fresh, h, resp, w', post. exact Hrun.
Defined.

Lemma fallback_and_timer_gates_witness :
  download_request release_frees
    (__init__ (mkSettings None None None)) req_a
    (mkGetOutcome false None) world0
  = (Val (FromFallback req_a), world0, [EvFallback req_a])
  ∧ Forall (λ e, is_timer_call e = false) [EvFallback req_a].
Proof.
  pose proof (fallback_and_timer_gates release_frees
                (mkSettings None None None) req_a
                (mkGetOutcome false None) world0) as [Hfb Hnt].
  split.
  - apply Hfb. by left.
  - eapply Hnt; [by left|]. apply Hfb. by left.
Defined.

Lemma spider_output_releases_then_requeues_witness :
  process_spider_output release_frees (mkResponse req_a)
    [AnItem "x"; ARequest req_plain] world_ab
  = (Val tt, mkWorld (Manager.set_held_by (Some "http://b/") Manager.init)
               None None,
     [EvYield (AnItem "x"); EvYield (ARequest req_plain);
      EvRelease (Some "http://a/"); EvAcquireNext (Granted req_b);
      EvYield (ARequest (mkRequest "http://b/" SimpleWebdriver true))]).
Proof.
  destruct (spider_output_releases_then_requeues release_frees
              (mkResponse req_a) [AnItem "x"; ARequest req_plain] world_ab
              eq_refl)
    as (w1 & t1 & next & m & H1 & Hn & Hrun & _).
  vm_compute in H1. injection H1 as <- <-.
  vm_compute in Hn. injection Hn as <- <-.
  rewrite Hrun. vm_compute. reflexivity.
Defined.

Lemma start_requests_filtered_witness :
  ∃ w' t,
    process_start_requests
      [AnItem "x"; ARequest req_a; ARequest req_plain; ARequest req_b]
      world0
    = (Val tt, w', t)
    ∧ yielded t = [AnItem "x"; ARequest req_a; ARequest req_plain].
Proof.
  destruct (start_requests_filtered
              [AnItem "x"; ARequest req_a; ARequest req_plain; ARequest req_b]
              world0)
    as (w' & t & Hrun & _).
  { by repeat constructor. }
  exists w', t. split; [exact Hrun|].
  vm_compute in Hrun. by injection Hrun as _ <-.
Defined.

(** C4 as stated fails: the item after an action request is not passed
    on, and [acquire] is not called on the action request. *)
Lemma start_batch_with_action_request :
  process_start_requests [ARequest action_c; AnItem "x"] world0
  = (Exc (mkExn IgnoreRequest error_msg None), world0, [])
  ∧ non_resource (yielded [])
    ≠ non_resource [ARequest action_c; AnItem "x"]
  ∧ acquire_arguments [] ≠ resource_bound [ARequest action_c; AnItem "x"].
Proof. repeat split; [vm_compute; discriminate..]. Qed.

Lemma action_start_request_rejected_witness :
  process_start_requests
    ([AnItem "x"; ARequest req_a] ++ ARequest action_c :: [AnItem "y"])
    world0
  = (Exc (mkExn IgnoreRequest error_msg None), world_a,
     [EvYield (AnItem "x"); EvAcquire req_a (Granted req_a);
      EvYield (ARequest req_a)]).
Proof.
  apply (action_start_request_rejected [AnItem "x"; ARequest req_a]
           action_c [AnItem "y"] world0); reflexivity.
Defined.

Lemma spider_exception_returns_waiting_witness :
  process_spider_exception release_frees (mkResponse req_a)
    connection_refused world_a
  = (Val (Some [WAITING]), world0,
     [EvRelease (Some "http://a/"); EvAcquireNext WAITING]).
Proof.
  apply (spider_exception_returns_waiting release_frees (mkResponse req_a)
           connection_refused world_a); reflexivity.
Defined.

(** * Further properties *)

(** ** The download handler *)

Section MoreHandlerFacts.

Variable release_unnamed : option string → option string.

Local Abbreviation release := (Manager.release release_unnamed).
Local Abbreviation _download_request := (_download_request release_unnamed).
Local Abbreviation download_request := (download_request release_unnamed).

(** Where the clause that follows the blocking call leaves the alarm. *)
Lemma clause_disarms self request o w1 resp w2 t2 :
  match get_raises o with
  | Some e => _download_request_except self request e w1
  | None => _download_request_else self request w1
  end = (Val resp, w2, t2) →
  alarm w2 = (if truthy (_hang_timeout self) then None else alarm w1)
  ∧ sigalrm w2 = sigalrm w1.
Proof.
  destruct (get_raises o) as [e|].
  - destruct (except_clause_run self request e w1)
      as (? & ? & ? & _ & ->).
    intros [= _ <- _]. by destruct (truthy _).
  - destruct (else_clause_run self request w1)
      as (? & ? & ? & _ & _ & ->).
    intros [= _ <- _]. by destruct (truthy _).
Qed.

(** X1.  With a hang timeout configured, one that [signal.alarm] takes,
    and a handler bound if the alarm goes off, [_download_request] leaves
    no alarm pending, however the blocking call went. *)
Theorem alarm_never_left_pending self request o w :
  truthy (_hang_timeout self) = true →
  timeout_accepted self = true → handler_ready o w →
  ∃ resp w' t,
    _download_request self request o w = (Val resp, w', t)
    ∧ alarm w' = None.
Proof.
  intros Ht Hfits Hready.
  destruct (_download_request_run release_unnamed self request o w
              Hfits Hready)
    as (res & m0 & fresh & h & m1 & w0 & w1 & t1 & resp & w2 & t2
        & _ & _ & _ & _ & _ & _ & _ & Hc & _ & Hrun).
  eexists _, _, _. split; [exact Hrun|].
  destruct (clause_disarms _ _ _ _ _ _ _ Hc) as [Hal _].
  rewrite Ht in Hal. exact Hal.
Qed.

(** X2.  With a hang timeout that [signal.alarm] takes, when the
    blocking call returns and the alarm did not go off: after [acquire]
    and the call, the handler disarms the alarm if a hang
    timeout is configured, reads the [webdriver] property a second time,
    finds the instance [get] was called on, calls [release()], and returns
    the response that holds that instance. *)
Theorem success_path self request o w :
  timeout_accepted self = true →
  alarm_fires o = false → get_raises o = None →
  ∃ res m0 fresh h m1 w',
    Manager.acquire request (manager w) = (res, m0)
    ∧ Manager.webdriver m0 = (fresh, h, m1)
    ∧ _download_request self request o w
      = (Val (mkWebdriverResponse (url request) (inl h)), w',
         [EvLog DEBUG ("Downloading " +:+ url request +:+ " with webdriver")]
         ++ arm_events self
         ++ [EvAcquire request res; EvWebdriver fresh h;
             EvGet h (url request)]
         ++ disarm_events self "settings alarm to 0 on SUCCESS" "YEAH: "
              (Some h)
         ++ [EvWebdriver false h; EvRelease None])
    ∧ manager w' = release None m1
    ∧ Manager._webdriver (manager w') = Some h.
Proof.
  intros Hfits Hfire Hok.
  destruct (_download_request_run release_unnamed self request o w Hfits)
    as (res & m0 & fresh & h & m1 & w0 & w1 & t1 & resp & w2 & t2
        & Ha & Hw & Hm0 & _ & _ & _ & Hq & Hc & _ & Hrun).
  { unfold handler_ready. by rewrite Hfire. }
  destruct (Hq Hfire) as [-> ->]. rewrite Hok in Hc.
  destruct (webdriver_again _ _ _ _ Hw) as [Hsome Hw'].
  destruct (else_clause_run self request (set_manager m1 w0))
    as (fresh' & h' & m' & Hw'' & _ & He).
  cbn in Hw''. rewrite Hw' in Hw''. injection Hw'' as <- <- <-.
  rewrite He in Hc. injection Hc as <- <- <-.
  exists res, m0, fresh, h, m1. eexists.
  split; [done|]. split; [done|]. split.
  { rewrite Hrun, Hsome. simpl. by rewrite <- !app_assoc. }
  cbn [manager set_manager]. split; [done|]. cbn. exact Hsome.
Qed.

(** X4.  An action request, with the webdriver enabled: [download_request]
    raises [NotImplementedError].  It has bound the [SIGALRM] handler
    first if a hang timeout is configured; it has called neither the
    manager nor the fallback handler, and the manager and the alarm are as
    they were. *)
Theorem action_request_not_implemented self request o w :
  _enabled self = true →
  is_WebdriverRequest request = true →
  is_WebdriverActionRequest request = true →
  ∃ w',
    download_request self request o w
    = (Exc (mkExn NotImplementedError "" None), w',
       if truthy (_hang_timeout self) then [EvSignal SIGALRM request]
       else [])
    ∧ manager w' = manager w ∧ alarm w' = alarm w
    ∧ sigalrm w'
      = (if truthy (_hang_timeout self) then Some request else sigalrm w).
Proof.
  intros He Hwd Hact. unfold download_request.
  rewrite He, Hwd, Hact. unfold bind, when, signal_signal, raise, ret.
  destruct (truthy (_hang_timeout self)); simpl;
    (eexists; split; [reflexivity | done]).
Qed.

(** The blocking call leaves the bound handler alone. *)
Lemma webdriver_get_events self u o w r w' t :
  webdriver_get release_unnamed self u o w = (r, w', t) →
  sigalrm w' = sigalrm w ∧ Forall (λ e, is_driver_event e = true) t.
Proof.
  unfold webdriver_get, deliver_alarm, alarm_handler.
  unfold bind, when, ret, raise, emit, log, mgr_webdriver,
    mgr_reset_webdriver, mgr_release.
  destruct (Manager.webdriver (manager w)) as [[fresh h] m]. cbn.
  destruct (alarm_fires o); cbn.
  - destruct (alarm w); cbn; [destruct (sigalrm w) eqn:Hs; cbn|].
    + destruct (Manager.webdriver m) as [[fresh' h'] m']. cbn.
      destruct (get_raises o); intros [= <- <- <-]; cbn;
        (split; [done | by repeat constructor]).
    + intros [= <- <- <-]; cbn. split; [done | by repeat constructor].
    + destruct (get_raises o); intros [= <- <- <-]; cbn;
        (split; [done | by repeat constructor]).
  - destruct (get_raises o); intros [= <- <- <-]; cbn;
      (split; [done | by repeat constructor]).
Qed.

(** X5.  A webdriver request that is no action request, with the
    webdriver enabled, a hang timeout that [signal.alarm] takes, and, if
    the alarm goes off, a handler bound once [download_request] has done
    its binding: [download_request] does not raise; it binds the
    [SIGALRM] handler to this request if a hang timeout is configured and
    leaves the bound handler alone otherwise, it never calls the fallback
    handler, and it returns what [_download_request] returns for the
    request. *)
Theorem webdriver_request_downloaded self request o w :
  _enabled self = true →
  is_WebdriverRequest request = true →
  is_WebdriverActionRequest request = false →
  timeout_accepted self = true →
  handler_ready o
    (if truthy (_hang_timeout self) then set_sigalrm (Some request) w
     else w) →
  ∃ resp w' t,
    download_request self request o w
    = (Val (FromWebdriver resp), w',
       (if truthy (_hang_timeout self) then [EvSignal SIGALRM request]
        else []) ++ t)
    ∧ _download_request self request o
        (if truthy (_hang_timeout self)
         then set_sigalrm (Some request) w else w)
      = (Val resp, w', t)
    ∧ sigalrm w'
      = (if truthy (_hang_timeout self) then Some request else sigalrm w)
    ∧ ∀ r, EvFallback r ∉ t.
Proof.
  intros He Hwd Hact Hfits Hready.
  unfold download_request. rewrite He, Hwd, Hact.
  set (ws := if truthy (_hang_timeout self)
             then set_sigalrm (Some request) w else w) in *.
  destruct (_download_request_run release_unnamed self request o ws
              Hfits Hready)
    as (res & m0 & fresh & h & m1 & w0 & w1 & t1 & resp & w2 & t2
        & _ & _ & _ & Hs0 & Hg & _ & _ & Hc & _ & Hrun).
  destruct (webdriver_get_events _ _ _ _ _ _ _ Hg) as [Hs1 Ht1].
  destruct (clause_disarms _ _ _ _ _ _ _ Hc) as [_ Hs2].
  refine (ex_intro _ resp (ex_intro _ _ (ex_intro _ _
            (conj _ (conj Hrun _))))).
  { unfold bind at 1. unfold when, signal_signal, ret. subst ws.
    destruct (truthy (_hang_timeout self)) eqn:Ht; simpl;
      unfold bind, ret; rewrite Hrun; by rewrite app_nil_r. }
  split.
  - cbn [sigalrm set_manager]. rewrite Hs2, Hs1, Hs0. subst ws.
    by destruct (truthy (_hang_timeout self)).
  - intros r Hin.
    apply elem_of_cons in Hin as [[=]|Hin].
    apply elem_of_app in Hin as [Hin|Hin].
    { unfold arm_events in Hin. destruct (truthy _).
      - by apply list_elem_of_singleton in Hin.
      - by apply elem_of_nil in Hin. }
    apply elem_of_cons in Hin as [[=]|Hin].
    inversion Ht1 as [|? ? _ Ht1' Heq]; subst.
    inversion Ht1' as [|? ? _ Ht1'' Heq]; subst.
    apply elem_of_cons in Hin as [[=]|Hin].
    apply elem_of_cons in Hin as [[=]|Hin].
    apply elem_of_app in Hin as [Hin|Hin].
    { rewrite Forall_forall in Ht1''. by specialize (Ht1'' _ Hin). }
    apply elem_of_app in Hin as [Hin|Hin];
      [|by apply list_elem_of_singleton in Hin].
    destruct (get_raises o) as [e|].
    + destruct (except_clause_run self request e w1)
        as (? & ? & ? & _ & Hx). rewrite Hx in Hc.
      injection Hc as _ _ <-. unfold disarm_events in Hin.
      destruct (truthy _); simpl in Hin;
        repeat (apply elem_of_cons in Hin as [[=]|Hin]);
        by apply elem_of_nil in Hin.
    + destruct (else_clause_run self request w1)
        as (? & ? & ? & _ & _ & Hx). rewrite Hx in Hc.
      injection Hc as _ _ <-. unfold disarm_events in Hin.
      destruct (truthy _); simpl in Hin;
        repeat (apply elem_of_cons in Hin as [[=]|Hin]);
        by apply elem_of_nil in Hin.
Qed.

(** X3.  The hang.  With the webdriver enabled and a hang timeout
    configured, one that [signal.alarm] takes, for a webdriver request that is no action request, when
    the alarm goes off during the blocking call: the handler bound by this
    very call runs, sends [SIGTERM] to the instance [get] was called on,
    sets [_webdriver] to [None] and calls [release()]; the clause that
    follows the call finds [_webdriver] at [None] and its read of the
    [webdriver] property creates a new instance, which is the one the
    response holds if the call returned; and [release()] is called a
    second time by the [finally] clause. *)
Theorem hang_path self request o w :
  _enabled self = true →
  is_WebdriverRequest request = true →
  is_WebdriverActionRequest request = false →
  truthy (_hang_timeout self) = true →
  timeout_accepted self = true →
  alarm_fires o = true →
  ∃ res m0 fresh h m1 w',
    Manager.acquire request (manager w) = (res, m0)
    ∧ Manager.webdriver m0 = (fresh, h, m1)
    ∧ download_request self request o w
      = (Val (FromWebdriver
                (mkWebdriverResponse (url request)
                   match get_raises o with
                   | Some e => inr (set_page_source e blank_page)
                   | None => inl (Manager.created m1)
                   end)),
         w',
         [EvSignal SIGALRM request;
          EvLog DEBUG ("Downloading " +:+ url request +:+ " with webdriver");
          EvAlarm (default 0%Z (_hang_timeout self));
          EvAcquire request res; EvWebdriver fresh h; EvGet h (url request);
          EvWebdriver false h; EvSendSignal h SIGTERM; EvRelease None;
          EvLog INFO
            ("WebDriver.get for '" +:+ url request
             +:+ "' took more than WEBDRIVER_HANG_TIMEOUT ("
             +:+ str_setting (_hang_timeout self) +:+ "s)")]
         ++ match get_raises o with
            | Some e =>
                [EvLog DEBUG "settings alarm to 0 on FAILURE";
                 EvLog DEBUG "FAIL: None"; EvAlarm 0;
                 EvLog ERROR
                   ("Error while downloading " +:+ url request
                    +:+ " with webdriver (" +:+ exn_str e +:+ ")");
                 EvWebdriver true (Manager.created m1);
                 EvLog DEBUG
                   ("FAIL 2. THIS SHOULD BE WEBDRIVER: "
                    +:+ str_webdriver (Some (Manager.created m1)))]
            | None =>
                [EvLog DEBUG "settings alarm to 0 on SUCCESS";
                 EvLog DEBUG "YEAH: None"; EvAlarm 0;
                 EvWebdriver true (Manager.created m1)]
            end
         ++ [EvRelease None])
    ∧ release_calls
        (snd (download_request self request o w)) = [None; None]
    ∧ Manager._webdriver (manager w') = Some (Manager.created m1).
Proof.
  intros He Hwd Hact Ht Hfits Hfire.
  destruct (Manager.acquire request (manager w)) as [res m0] eqn:Ha.
  destruct (Manager.webdriver m0) as [[fresh h] m1] eqn:Hw.
  destruct (webdriver_again _ _ _ _ Hw) as [Hsome Hw'].
  exists res, m0, fresh, h, m1.
  assert (∃ z, _hang_timeout self = Some z ∧ (z =? 0)%Z = false)
    as (z & Hz & Hnz).
  { unfold truthy in Ht. destruct (_hang_timeout self) as [z|]; [|done].
    exists z. split; [done|]. by destruct (z =? 0)%Z. }
  assert (fits_c_int z = true) as Hfz.
  { unfold timeout_accepted in Hfits. by rewrite Hz in Hfits. }
  unfold download_request, _download_request, try_finally, try_except_else,
    webdriver_get, deliver_alarm, alarm_handler, _download_request_except,
    _download_request_else.
  rewrite He, Hwd, Hact, Ht, Hfire, Hz.
  unfold bind, when, ret, raise, emit, log, signal_alarm, signal_signal,
    mgr_acquire, mgr_webdriver, mgr_webdriver_attr, mgr_reset_webdriver,
    mgr_release.
  cbn -[fits_c_int]. rewrite Hfz. cbn. rewrite Ha. cbn.
  rewrite Hw, Hnz. cbn. rewrite Hw'. cbn.
  destruct (get_raises o) as [e|]; cbn;
    (eexists; split; [done|]; split; [done|]; split; [reflexivity|];
     split; reflexivity).
Qed.

Lemma logged_elem level msg t :
  EvLog level msg ∈ t → (level, msg) ∈ logged t.
Proof.
  intros Hin. unfold logged. apply list_elem_of_omap.
  by exists (EvLog level msg).
Qed.

(** X7.  A failed download is reported twice: with a hang timeout that
    [signal.alarm] takes and a handler bound if the alarm goes off, when
    the blocking call raised, the response of [_download_request], handed to
    [process_response], makes it log at [ERROR] level the very line
    [_download_request] has logged already, and the response goes on
    unchanged. *)
Theorem failure_logged_twice self request o e w :
  timeout_accepted self = true → handler_ready o w →
  get_raises o = Some e →
  ∃ resp w1 t1 msg,
    _download_request self request o w = (Val resp, w1, t1)
    ∧ msg = "Error while downloading " +:+ url request
            +:+ " with webdriver (" +:+ exn_str e +:+ ")"
    ∧ (ERROR, msg) ∈ logged t1
    ∧ process_response request (FromWebdriver resp) w1
      = (Val (FromWebdriver resp), w1, [EvLog ERROR msg]).
Proof.
  intros Hfits Hready Hraise.
  destruct (_download_request_run release_unnamed self request o w
              Hfits Hready)
    as (res & m0 & fresh & h & m1 & w0 & w1 & t1 & resp & w2 & t2
        & _ & _ & _ & _ & _ & _ & _ & Hc & _ & Hrun).
  rewrite Hraise in Hc.
  destruct (except_clause_run self request e w1)
    as (fresh' & h' & m' & _ & Hx).
  rewrite Hx in Hc. injection Hc as <- <- <-.
  eexists _, _, _, _. split; [exact Hrun|]. split; [reflexivity|]. split.
  - apply logged_elem.
    rewrite elem_of_cons; right. rewrite elem_of_app; right.
    do 3 (rewrite elem_of_cons; right).
    rewrite elem_of_app; right. rewrite elem_of_app; left.
    rewrite elem_of_app; right. rewrite elem_of_cons. by left.
  - reflexivity.
Qed.

(** X12.  With a hang timeout that is no C [int], [_download_request]
    raises [OverflowError] at the arming of the alarm, which comes before
    the [try]: it has logged its debug line and nothing more, [acquire],
    [get] and [release] are not called, and the world is as it was. *)
Theorem arming_overflow self request o w :
  timeout_accepted self = false →
  _download_request self request o w
  = (Exc (overflow_error (default 0%Z (_hang_timeout self))), w,
     [EvLog DEBUG ("Downloading " +:+ url request +:+ " with webdriver");
      EvAlarm (default 0%Z (_hang_timeout self))]).
Proof.
  unfold timeout_accepted. intros Hbad.
  destruct (_hang_timeout self) as [z|] eqn:Hz; [|done].
  assert (truthy (Some z) = true) as Ht.
  { unfold truthy. destruct (z =? 0)%Z eqn:Hz0; [|done].
    apply Z.eqb_eq in Hz0. by subst z. }
  unfold _download_request. rewrite Hz, Ht.
  unfold bind, when, log, emit, signal_alarm. simpl default.
  by rewrite Hbad.
Qed.

End MoreHandlerFacts.

(** ** The middlewares *)

(** X6.  [process_response] never raises and returns the response it was
    given, whatever it is; it logs one line, at [ERROR] level, when the
    response is a [WebdriverResponse] built with an exception, and nothing
    otherwise; it touches neither the manager nor the alarm. *)
Theorem process_response_passes_on request response w :
  ∃ t,
    process_response request response w = (Val response, w, t)
    ∧ match response with
      | FromWebdriver resp =>
          match response_arg resp with
          | inr e =>
              t = [EvLog ERROR
                     ("Error while downloading " +:+ url request
                      +:+ " with webdriver (" +:+ exn_str e +:+ ")")]
          | inl _ => t = []
          end
      | FromFallback _ => t = []
      end.
Proof.
  unfold process_response, response_exception.
  destruct response as [r|[u [h|e]]]; simpl; eexists; split; reflexivity.
Qed.

Section MoreMiddlewareFacts.

Variable release_unnamed : option string → option string.

Local Abbreviation release := (Manager.release release_unnamed).
Local Abbreviation process_spider_output :=
  (process_spider_output release_unnamed).
Local Abbreviation process_spider_exception :=
  (process_spider_exception release_unnamed).

Lemma upto_action_clean l : ∀ x, x ∈ upto_action l → is_action x = false.
Proof.
  induction l as [|y l IH]; intros x Hx; simpl in Hx.
  { by apply elem_of_nil in Hx. }
  destruct (is_action y) eqn:Hy; [by apply elem_of_nil in Hx|].
  apply elem_of_cons in Hx as [->|Hx]; [done | by apply IH].
Qed.

(** A batch is what comes before its first action request, followed by
    nothing or by an action request and the rest. *)
Lemma upto_action_split l :
  if existsb is_action l
  then ∃ a rest, l = upto_action l ++ ARequest a :: rest
                 ∧ is_WebdriverRequest a = true
                 ∧ is_WebdriverActionRequest a = true
  else l = upto_action l.
Proof.
  induction l as [|y l IH]; simpl; [done|].
  destruct (is_action y) eqn:Hy; simpl.
  - destruct y as [d|a]; [done|]. simpl in Hy.
    apply andb_prop in Hy as [? ?]. by exists a, l.
  - destruct (existsb is_action l).
    + destruct IH as (a & rest & Hl & ? & ?). exists a, rest.
      by rewrite <- Hl.
    + by rewrite <- IH.
Qed.

(** X8.  What [process_start_requests] does with any batch: it goes
    through the items before the first action request, passing on those
    that are no webdriver requests and calling [acquire] on the others,
    and then stops: by raising [IgnoreRequest] if there is an action
    request, and normally if there is none.  Nothing after the first
    action request is looked at. *)
Theorem start_requests_stop_at_action start_requests w :
  ∃ w' t,
    process_start_requests (upto_action start_requests) w = (Val tt, w', t)
    ∧ process_start_requests start_requests w
      = (if existsb is_action start_requests
         then Exc (mkExn IgnoreRequest error_msg None) else Val tt,
         w', t)
    ∧ non_resource (yielded t) = non_resource (upto_action start_requests)
    ∧ acquire_arguments t = resource_bound (upto_action start_requests)
    ∧ yielded t `sublist_of` start_requests.
Proof.
  destruct (_process_requests_run (upto_action start_requests) true w)
    as (w' & t & Hrun & Hn & Hc & _ & Hs).
  { intros x Hx. by rewrite (upto_action_clean _ _ Hx). }
  exists w', t. unfold process_start_requests.
  split; [done|]. pose proof (upto_action_split start_requests) as Hsplit.
  destruct (existsb is_action start_requests).
  - destruct Hsplit as (a & rest & Hl & Hwd & Hact).
    split; [|split; [done|split; [done|]]].
    + rewrite Hl at 1. rewrite (_process_requests_app _ _ _ _ _ _ Hrun).
      rewrite _process_requests_reject by done. by rewrite app_nil_r.
    + rewrite Hl. etrans; [exact Hs|]. by apply sublist_inserts_r.
  - rewrite <- Hsplit in *. by repeat split.
Qed.

(** What [_process_requests] leaves in a trace, and what it leaves alone,
    for any batch and either value of [start]. *)
Lemma _process_requests_quiet items start w r w' t :
  _process_requests items start w = (r, w', t) →
  Forall (λ e, is_router_event e = true) t
  ∧ alarm w' = alarm w ∧ sigalrm w' = sigalrm w
  ∧ Manager._webdriver (manager w') = Manager._webdriver (manager w).
Proof.
  revert w t. induction items as [|x items IH]; intros w t Hrun.
  { simpl in Hrun. unfold ret in Hrun. injection Hrun as <- <- <-.
    by repeat split. }
  destruct (is_resource_bound x) eqn:Hrb.
  - destruct x as [d|q]; [done|]. simpl in Hrb.
    destruct (start && is_WebdriverActionRequest q) eqn:Hs.
    { apply andb_prop in Hs as [-> Hact].
      rewrite _process_requests_reject in Hrun by done.
      injection Hrun as <- <- <-. by repeat split. }
    rewrite _process_requests_acquire in Hrun by done.
    destruct (Manager.acquire q (manager w)) as [res m] eqn:Ha.
    destruct (_process_requests items start (set_manager m w))
      as [[r1 w1] t1] eqn:H1.
    injection Hrun as <- <- <-.
    destruct (IH _ _ H1) as (Hev & Hal & Hsig & Hwd).
    split; [|split; [done|split; [done|]]].
    + constructor; [done|]. destruct res; [done | by constructor].
    + rewrite Hwd. cbn [manager set_manager]. unfold Manager.acquire in Ha.
      destruct (Manager.held_by (manager w));
        [destruct (Manager.waiting (manager w) !! Manager.identity q)|];
        by injection Ha as _ <-.
  - rewrite _process_requests_pass in Hrun by done.
    destruct (_process_requests items start w) as [[r1 w1] t1] eqn:H1.
    injection Hrun as <- <- <-.
    destruct (IH _ _ H1) as (Hev & Hal & Hsig & Hwd).
    split; [by constructor | done].
Qed.

(** What [process_spider_output] comes to. *)
Lemma spider_output_shape response result w :
  ∃ w1 t1,
    _process_requests result false w = (Val tt, w1, t1)
    ∧ process_spider_output response result w
      = if is_WebdriverRequest (request response) then
          let '(next, m) :=
            Manager.acquire_next
              (release (Some (url (request response))) (manager w1)) in
          (Val tt, set_manager m w1,
           t1 ++ [EvRelease (Some (url (request response)));
                  EvAcquireNext next]
           ++ match next with
              | Granted r =>
                  [EvYield (ARequest (replace_dont_filter r true))]
              | WAITING => []
              end)
        else (Val tt, w1, t1).
Proof.
  destruct (_process_requests_run result false w)
    as (w1 & t1 & H1 & _); [done|].
  exists w1, t1. split; [done|]. unfold process_spider_output.
  destruct (is_WebdriverRequest (request response)).
  - unfold bind. rewrite H1.
    unfold mgr_release, mgr_acquire_next, yield, emit, ret.
    cbn [manager set_manager].
    destruct (Manager.acquire_next _) as [[|q] m]; reflexivity.
  - unfold bind, ret. rewrite H1. by rewrite app_nil_r.
Qed.

(** X9.  [process_spider_output] never raises, whatever the response and
    the spider's result: no request of a spider's result is turned down,
    [acquire] is called on each of its webdriver requests, action requests
    among them, and on nothing else, and the items that are no webdriver
    requests are all yielded, in their order, before anything is
    released.  For a response to a request that is no webdriver request
    it does what [_process_requests] does and no more: no [release], no
    [acquire_next]. *)
Theorem spider_output_never_raises response result w :
  ∃ w1 t1 w' t,
    _process_requests result false w = (Val tt, w1, t1)
    ∧ process_spider_output response result w = (Val tt, w', t)
    ∧ t1 `prefix_of` t
    ∧ non_resource (yielded t1) = non_resource result
    ∧ acquire_arguments t = resource_bound result
    ∧ (is_WebdriverRequest (request response) = false → w' = w1 ∧ t = t1).
Proof.
  destruct (_process_requests_run result false w)
    as (w1 & t1 & H1 & Hn & Hc & _); [done|].
  destruct (spider_output_shape response result w)
    as (w1' & t1' & H1' & Hshape).
  rewrite H1 in H1'. injection H1' as <- <-.
  exists w1, t1. rewrite Hshape.
  destruct (is_WebdriverRequest (request response)) eqn:Hwd.
  - destruct (Manager.acquire_next _) as [next m] eqn:Hnx.
    eexists _, _. split; [done|]. split; [reflexivity|].
    split; [by eexists|]. split; [done|]. split; [|done].
    unfold acquire_arguments, acquire_calls in *. rewrite omap_app.
    destruct next; simpl; by rewrite app_nil_r.
  - exists w1, t1. split; [done|]. split; [done|]. by repeat split.
Qed.

(** X10.  The spider middleware keeps to the lock and the queue: whatever
    they are given and whether they return or raise, the traces of
    [process_start_requests], [process_spider_output] and
    [process_spider_exception] hold nothing but calls of [acquire],
    [release] and [acquire_next] and yields, and the pending alarm, the
    bound signal handler and the manager's webdriver are left as they
    were. *)
Theorem middleware_keeps_to_the_queue response exception items w :
  (∀ r w' t,
     process_start_requests items w = (r, w', t)
     ∨ process_spider_output response items w = (r, w', t) →
     Forall (λ e, is_router_event e = true) t
     ∧ alarm w' = alarm w ∧ sigalrm w' = sigalrm w
     ∧ Manager._webdriver (manager w') = Manager._webdriver (manager w))
  ∧ (∀ r w' t,
       process_spider_exception response exception w = (r, w', t) →
       Forall (λ e, is_router_event e = true) t
       ∧ alarm w' = alarm w ∧ sigalrm w' = sigalrm w
       ∧ Manager._webdriver (manager w') = Manager._webdriver (manager w)).
Proof.
  assert (∀ i m, Manager._webdriver (release i m) = Manager._webdriver m)
    as Hrel.
  { intros [x|] m; simpl; [by case_decide | done]. }
  assert (∀ m, Manager._webdriver (snd (Manager.acquire_next m))
               = Manager._webdriver m) as Hnext.
  { intros m. unfold Manager.acquire_next, Manager.acquire.
    destruct (Manager.order m) as [|i rest]; [done|].
    destruct (Manager.waiting m !! i) as [q|]; [|done]. simpl.
    destruct (Manager.held_by m); [|done]. simpl.
    by destruct (delete i (Manager.waiting m) !! Manager.identity q). }
  split.
  - intros r w' t [Hrun|Hrun].
    { by apply (_process_requests_quiet _ _ _ _ _ _ Hrun). }
    destruct (spider_output_shape response items w)
      as (w1 & t1 & H1 & Hshape).
    destruct (_process_requests_quiet _ _ _ _ _ _ H1)
      as (Hev & Hal & Hsig & Hwd).
    rewrite Hrun in Hshape.
    destruct (is_WebdriverRequest (request response)).
    + destruct (Manager.acquire_next _) as [next m] eqn:Hnx.
      injection Hshape as -> -> ->.
      split; [|split; [done|split; [done|]]].
      * rewrite Forall_app. split; [done|].
        destruct next; by repeat constructor.
      * cbn [manager set_manager].
        pose proof (Hnext (release (Some (url (request response)))
                             (manager w1))) as Hn'.
        rewrite Hnx in Hn'. cbn [snd] in Hn'. by rewrite Hn', Hrel.
    + by injection Hshape as -> -> ->.
  - intros r w' t. unfold process_spider_exception.
    destruct (is_WebdriverRequest (request response)) eqn:Hwd.
    + unfold bind, mgr_release, mgr_acquire_next, ret.
      cbn [manager set_manager].
      destruct (Manager.acquire_next _) as [next m] eqn:Hnx.
      intros [= <- <- <-]. split; [by repeat constructor|].
      split; [done|]. split; [done|]. cbn [manager set_manager].
      pose proof (Hnext (release (Some (url (request response)))
                           (manager w))) as Hn'.
      rewrite Hnx in Hn'. cbn [snd] in Hn'. by rewrite Hn', Hrel.
    + intros [= <- <- <-]. by repeat split.
Qed.

(** X11.  The two hooks side by side, for a response to a webdriver
    request and a spider that produced nothing: [process_spider_exception]
    and [process_spider_output] make the same two calls, [release] with
    the request's URL and [acquire_next], and leave the same world; the
    exception hook returns the answer of [acquire_next] as it is, the
    output hook yields it only if it is a request, and with [dont_filter]
    set. *)
Theorem exception_hook_mirrors_output_hook response exception w :
  is_WebdriverRequest (request response) = true →
  ∃ next m,
    Manager.acquire_next
      (release (Some (url (request response))) (manager w)) = (next, m)
    ∧ process_spider_exception response exception w
      = (Val (Some [next]), set_manager m w,
         [EvRelease (Some (url (request response))); EvAcquireNext next])
    ∧ process_spider_output response [] w
      = (Val tt, set_manager m w,
         [EvRelease (Some (url (request response))); EvAcquireNext next]
         ++ match next with
            | Granted r =>
                [EvYield (ARequest (replace_dont_filter r true))]
            | WAITING => []
            end).
Proof.
  intros Hwd.
  destruct (Manager.acquire_next
              (release (Some (url (request response))) (manager w)))
    as [next m] eqn:Hnx.
  exists next, m. split; [done|]. split.
  - rewrite process_spider_exception_run by done. by rewrite Hnx.
  - destruct (spider_output_shape response [] w) as (w1 & t1 & H1 & ->).
    simpl in H1. unfold ret in H1. injection H1 as <- <-.
    by rewrite Hwd, Hnx.
Qed.

End MoreMiddlewareFacts.

(** ** The further properties at the sample inputs *)

Lemma alarm_never_left_pending_witness :
  ∃ resp w' t,
    _download_request release_frees handler30 req_a
      (mkGetOutcome true None) world_bound = (Val resp, w', t)
    ∧ alarm w' = None.
Proof.
  apply (alarm_never_left_pending release_frees handler30 req_a
           (mkGetOutcome true None) world_bound);
    [reflexivity | reflexivity | intros _; discriminate].
Defined.

Lemma arming_overflow_witness :
  _download_request release_frees handler_overflow req_a
    (mkGetOutcome false None) world0
  = (Exc (mkExn OverflowError "signed integer is greater than maximum" None),
     world0,
     [EvLog DEBUG "Downloading http://a/ with webdriver";
      EvAlarm 2147483648]).
Proof.
  apply (arming_overflow release_frees handler_overflow req_a
           (mkGetOutcome false None) world0).
  reflexivity.
Defined.

Lemma success_path_witness :
  ∃ w',
    _download_request release_frees handler30 req_a
      (mkGetOutcome false None) world0
    = (Val (mkWebdriverResponse "http://a/" (inl 0)), w',
       [EvLog DEBUG "Downloading http://a/ with webdriver";
        EvAlarm 30;
        EvAcquire req_a (Granted req_a); EvWebdriver true 0;
        EvGet 0 "http://a/";
        EvLog DEBUG "settings alarm to 0 on SUCCESS";
        EvLog DEBUG "YEAH: <WebDriver 0>";
        EvAlarm 0;
        EvWebdriver false 0;
        EvRelease None]).
Proof.
  destruct (success_path release_frees handler30 req_a
              (mkGetOutcome false None) world0 eq_refl eq_refl eq_refl)
    as (res & m0 & fresh & h & m1 & w' & Ha & Hw & Hrun & _).
  injection Ha as <- <-. injection Hw as <- <- <-.
  exists w'. exact Hrun.
Defined.

Lemma hang_path_witness :
  release_calls
    (snd (download_request release_frees handler30 req_a
            (mkGetOutcome true (Some connection_refused)) world0))
  = [None; None].
Proof.
  destruct (hang_path release_frees handler30 req_a
              (mkGetOutcome true (Some connection_refused)) world0
              eq_refl eq_refl eq_refl eq_refl eq_refl eq_refl)
    as (res & m0 & fresh & h & m1 & w' & _ & _ & _ & Hrel & _).
  exact Hrel.
Defined.

Lemma action_request_not_implemented_witness :
  ∃ w',
    download_request release_frees handler30 action_c
      (mkGetOutcome false None) world0
    = (Exc (mkExn NotImplementedError "" None), w',
       [EvSignal SIGALRM action_c])
    ∧ manager w' = manager world0.
Proof.
  destruct (action_request_not_implemented release_frees handler30
              action_c (mkGetOutcome false None) world0
              eq_refl eq_refl eq_refl)
    as (w' & Hrun & Hm & _).
  exists w'. split; [exact Hrun | exact Hm].
Defined.

Lemma webdriver_request_downloaded_witness :
  ∃ resp w' t,
    download_request release_frees handler30 req_a
      (mkGetOutcome true None) world0
    = (Val (FromWebdriver resp), w', [EvSignal SIGALRM req_a] ++ t)
    ∧ sigalrm w' = Some req_a.
Proof.
  destruct (webdriver_request_downloaded release_frees handler30 req_a
              (mkGetOutcome true None) world0 eq_refl eq_refl eq_refl
              eq_refl)
    as (resp & w' & t & Hrun & _ & Hs & _).
  { intros _. discriminate. }
  exists resp, w', t. split; [exact Hrun | exact Hs].
Defined.

Lemma failure_logged_twice_witness :
  ∃ resp w1 t1,
    _download_request release_frees handler30 req_a
      (mkGetOutcome false (Some connection_refused)) world0
    = (Val resp, w1, t1)
    ∧ (ERROR,
       "Error while downloading http://a/ with webdriver (connection refused)")
      ∈ logged t1
    ∧ process_response req_a (FromWebdriver resp) w1
      = (Val (FromWebdriver resp), w1,
         [EvLog ERROR
            "Error while downloading http://a/ with webdriver (connection refused)"]).
Proof.
  destruct (failure_logged_twice release_frees handler30 req_a
              (mkGetOutcome false (Some connection_refused))
              connection_refused world0 eq_refl)
    as (resp & w1 & t1 & msg & Hrun & -> & Hin & Hp);
    [intros [=] | reflexivity |].
  exists resp, w1, t1. split; [exact Hrun|]. split; [exact Hin | exact Hp].
Defined.

Lemma spider_output_never_raises_witness :
  process_spider_output release_frees (mkResponse req_plain)
    [AnItem "x"; ARequest req_a] world0
  = (Val tt, world_a,
     [EvYield (AnItem "x"); EvAcquire req_a (Granted req_a);
      EvYield (ARequest req_a)]).
Proof.
  destruct (spider_output_never_raises release_frees (mkResponse req_plain)
              [AnItem "x"; ARequest req_a] world0)
    as (w1 & t1 & w' & t & H1 & Hrun & _ & _ & _ & Hsame).
  destruct (Hsame eq_refl) as [-> ->]. rewrite Hrun.
  vm_compute in H1. by injection H1 as <- <-.
Defined.

Lemma middleware_keeps_to_the_queue_witness :
  Forall (λ e, is_router_event e = true)
    (snd (process_spider_exception release_frees (mkResponse req_a)
            connection_refused world_ab)).
Proof.
  destruct (middleware_keeps_to_the_queue release_frees (mkResponse req_a)
              connection_refused [] world_ab) as [_ Hexc].
  destruct (process_spider_exception release_frees (mkResponse req_a)
              connection_refused world_ab) as [[r w'] t] eqn:Hrun.
  exact (proj1 (Hexc r w' t eq_refl)).
Defined.

Lemma exception_hook_mirrors_output_hook_witness :
  process_spider_exception release_frees (mkResponse req_a)
    connection_refused world_ab
  = (Val (Some [Granted req_b]),
     mkWorld (Manager.set_held_by (Some "http://b/") Manager.init) None None,
     [EvRelease (Some "http://a/"); EvAcquireNext (Granted req_b)]).
Proof.
  destruct (exception_hook_mirrors_output_hook release_frees
              (mkResponse req_a) connection_refused world_ab eq_refl)
    as (next & m & Hn & Hrun & _).
  vm_compute in Hn. injection Hn as <- <-. exact Hrun.
Defined.
